(** * Storefront client: cart, checkout, catalog, admin upsert, revenue

    A shallow embedding of the browser scripts of the shop
    ([app.js] with its inline admin panel, the two standalone admin
    pages and [analytics-module.js]).

    Conventions of the embedding.
    - The module-level variables of the script ([currentUser], [cart],
      [products], [allProducts], [selectedImageFile]) and the browser's
      [localStorage] entry ['cart'] are the fields of one record [App]
      that every handler takes and returns.
    - The hosted backend is a collaborator, not code of the repository.
      It is modelled as three tables and a function [backend_exec] that
      answers one request at a time; a request may also fail in transit,
      which the oracle [fails] decides from the position of the request
      in the client's journal.  A failed request changes no table.
    - An [async] function returns a [Completion]: [Returned] when its
      promise is fulfilled, [Threw] when it is rejected.
    - JavaScript numbers are binary64 floating-point numbers, the
      kernel's [float], with its rounded operations: prices, totals and
      revenues are [float]s.  Quantities, stock and counts are whole
      numbers far below 2^53, on which the operations the scripts use are
      exact: they are integers ([Z]), turned into numbers by
      [number_of_Z] where they meet a price.
    - An [async] handler written as one function is a call during whose
      [await] no other handler runs; [addToCart] is also given in its two
      halves around the [await], for calls that overlap.
    - DOM rendering ([updateCartUI], [displayProducts], [closeModal], the
      image preview) is left out; notifications ([showToast]) are kept. *)

From Stdlib Require Import Ascii QArith Qround Qabs Lqa Floats.
From stdpp Require Import base option list strings numbers pretty sorting.

(** ** Numbers *)

(** The number a whole number is: exact below 2^53, rounded to the
    nearest above. *)
Definition number_of_Z (z : Z) : float :=
  SF2Prim (binary_normalize prec emax z 0 false).

(** The numbers that count as false: 0, -0 and NaN. *)
Definition falsy (x : float) : bool := is_zero x || is_nan x.

(** [x || 0] *)
Definition or_zero (x : float) : float := if falsy x then 0%float else x.

(** The number nearest to [n / 10], which is what the decimal text of
    [n] tenths stands for: the quotient of the whole numbers [n] and 10,
    rounded once. *)
Definition tenths (n : Z) : float :=
  match n with
  | Z0 => 0%float
  | Zpos p => SF2Prim (SF64div (S754_finite false p 0) (S754_finite false 10 0))
  | Zneg p => SF2Prim (SF64div (S754_finite true p 0) (S754_finite false 10 0))
  end.

(** The rational a finite number is; [None] for NaN and the infinities. *)
Definition exact (x : float) : option Q :=
  match Prim2SF x with
  | S754_zero _ => Some 0%Q
  | S754_finite s m e =>
      Some ((if s then - inject_Z (Z.pos m) else inject_Z (Z.pos m)) * 2 ^ e)%Q
  | _ => None
  end.

(** ** Data model *)

(** Rows of the [products] table, as the client receives them. *)
Record Product := mkProduct {
  p_id : string;
  p_name : string;
  p_description : string;
  p_price : float;
  p_category : string;
  p_image_url : string;
  p_sizes : option (list string);   (* the column may be null *)
  p_stock : Z;
  p_sku : string;
  p_featured : bool
}.

(** [session.user]. *)
Record User := mkUser { u_id : string; u_email : string }.

(** An element of the [cart] array.  [l_id] is the backend row id; lines
    created in anonymous mode have none. *)
Record CartLine := mkLine {
  l_id : option string;
  l_product : Product;
  l_quantity : Z;
  l_size : string
}.

(** Rows of [cart_items]. *)
Record CartRow := mkCartRow {
  r_id : string;
  r_user_id : string;
  r_product_id : string;
  r_quantity : Z;
  r_size : string
}.

(** An element of [orderData.items]. *)
Record OrderItem := mkOrderItem {
  oi_product_id : string;
  oi_name : string;
  oi_quantity : Z;
  oi_size : string;
  oi_price : float;
  oi_image_url : string
}.

(** [orderData] of [processCheckout]. *)
Record OrderData := mkOrderData {
  od_user_id : string;
  od_items : list OrderItem;
  od_total : float;
  od_status : string
}.

(** Rows of [orders]. *)
Record OrderRow := mkOrderRow {
  o_id : string;
  o_user_id : option string;
  o_items : list OrderItem;
  o_total : float;
  o_status : string
}.

(** The object handed to [update]/[insert] on [products]; every key may be
    absent ([updateStockPrompt] sends [{id, stock}] only). *)
Record ProductData := mkProductData {
  pd_id : option string;
  pd_name : option string;
  pd_description : option string;
  pd_price : option float;
  pd_category : option string;
  pd_image_url : option string;
  pd_sizes : option (list string);
  pd_stock : option Z;
  pd_sku : option string;
  pd_featured : option bool
}.

(** A [File] of the image picker. *)
Record File := mkFile { file_name : string; file_type : string; file_size : Z }.

Inductive ToastKind := success | error | info.

Inductive JsError := TypeError.

Inductive Completion := Returned | Threw (e : JsError).

(** JavaScript truthiness of a value that is either [undefined] or a
    string: only a non-empty string is truthy. *)
Definition truthy (v : option string) : bool :=
  match v with
  | Some s => if decide (s = "") then false else true
  | None => false
  end.

(** How the client library writes such a value into a filter. *)
Definition js_string (v : option string) : string :=
  match v with Some s => s | None => "undefined" end.

(** ** The backend collaborator *)

Inductive SortKey := PriceAsc | PriceDesc | FeaturedDesc | CreatedDesc.

Inductive Request :=
| SelectProducts (category search : option string) (sort : SortKey)
| InsertCartItem (user product : string) (quantity : Z) (size : string)
| UpdateCartQuantity (id : string) (quantity : Z)
| DeleteCartItem (id : string)
| DeleteCartOfUser (user : string)
| InsertOrder (o : OrderData)
| UpdateProduct (id : string) (pd : ProductData)
| InsertProduct (pd : ProductData).

Inductive Reply :=
| RepError (message : string)
| RepDone
| RepProducts (rows : list Product)
| RepCartRow (row : CartRow) (joined : Product)
| RepOrder (row : OrderRow).

Record Backend := mkBackend {
  be_products : list Product;
  be_cart_items : list CartRow;
  be_orders : list OrderRow;
  be_next : N                        (* source of fresh row ids *)
}.

Definition fresh_id (n : N) : string := "row-" +:+ pretty n.

Definition apply_product_data (pd : ProductData) (p : Product) : Product :=
  {| p_id := default (p_id p) (pd_id pd);
     p_name := default (p_name p) (pd_name pd);
     p_description := default (p_description p) (pd_description pd);
     p_price := default (p_price p) (pd_price pd);
     p_category := default (p_category p) (pd_category pd);
     p_image_url := default (p_image_url p) (pd_image_url pd);
     p_sizes := match pd_sizes pd with Some s => Some s | None => p_sizes p end;
     p_stock := default (p_stock p) (pd_stock pd);
     p_sku := default (p_sku p) (pd_sku pd);
     p_featured := default (p_featured p) (pd_featured pd) |}.

Definition blank_product (id : string) : Product :=
  mkProduct id "" "" 0%float "" "" None 0%Z "" false.

Definition set_row_quantity (id : string) (q : Z) (r : CartRow) : CartRow :=
  if decide (r_id r = id)
  then mkCartRow (r_id r) (r_user_id r) (r_product_id r) q (r_size r)
  else r.

Definition update_product_row (id : string) (pd : ProductData) (p : Product) : Product :=
  if decide (p_id p = id) then apply_product_data pd p else p.

(** ** Analytics: monthly revenue *)

(** The reply to [select('total')]: an error, or [data], which may be
    null; the totals are already parsed ([parseFloat(order.total)]). *)
Inductive TotalsReply :=
| TotalsError (message : string)
| Totals (data : option (list float)).

Record Revenue := mkRevenue {
  rev_total : float;
  rev_lastMonth : float;
  rev_change : float
}.

(** [data?.reduce((sum, order) => sum + parseFloat(order.total), 0) || 0] *)
Definition revenue_sum (data : option (list float)) : float :=
  match data with
  | Some totals => or_zero (foldl PrimFloat.add 0%float totals)
  | None => 0%float
  end.

(** The whole number [n] of [toFixed(1)] for a magnitude [v]: the one
    with [n / 10] nearest to [v], the larger one of two. *)
Definition nearest_tenth (v : Q) : Z := Qfloor (v * 10 + (1 # 2))%Q.

(** [parseFloat(x.toFixed(1))].  [toFixed] works on the exact value of
    [x]; it writes the sign first and rounds the magnitude.  From 10^21
    on, and for NaN and the infinities, it writes [x] as [String(x)]
    does, which parses back to [x]. *)
Definition to_fixed_1 (x : float) : float :=
  match exact x with
  | Some v =>
      if Qlt_le_dec (Qabs v) (10 ^ 21) then
        if (x <? 0)%float then (- tenths (nearest_tenth (Qabs v)))%float
        else tenths (nearest_tenth (Qabs v))
      else x
  | None => x
  end.

(** [lastRevenue > 0 ? (... * 100).toFixed(1) : 0], then [parseFloat]. *)
Definition percent_change (currentRevenue lastRevenue : float) : float :=
  if (0 <? lastRevenue)%float
  then to_fixed_1 ((currentRevenue - lastRevenue) / lastRevenue * 100)%float
  else 0%float.

Definition no_revenue : Revenue := mkRevenue 0%float 0%float 0%float.

(** [client] tells whether [getSupabaseClient()] found a client. *)
Definition calculateRevenue (client : bool) (currentMonth lastMonth : TotalsReply)
    : Revenue :=
  if client then
    match currentMonth with
    | TotalsError _ => no_revenue
    | Totals current =>
        match lastMonth with
        | TotalsError _ => no_revenue
        | Totals last =>
            let currentRevenue := revenue_sum current in
            let lastRevenue := revenue_sum last in
            mkRevenue currentRevenue lastRevenue
              (percent_change currentRevenue lastRevenue)
        end
    end
  else no_revenue.

(** ** Client state *)

Record App := mkApp {
  currentUser : option User;
  cart : list CartLine;
  stored_cart : option (list CartLine);        (* localStorage['cart'] *)
  products : list Product;
  allProducts : list Product;
  selectedImageFile : option File;
  admin_products_body : bool;                  (* is #admin-products-body in the page *)
  toasts : list (string * ToastKind);          (* oldest first *)
  requests : list (Request * bool);            (* journal: request, did it succeed *)
  backend : Backend
}.

Definition set_cart (c : list CartLine) (st : App) : App :=
  mkApp (currentUser st) c (stored_cart st) (products st) (allProducts st)
    (selectedImageFile st) (admin_products_body st) (toasts st) (requests st) (backend st).

Definition set_stored_cart (s : option (list CartLine)) (st : App) : App :=
  mkApp (currentUser st) (cart st) s (products st) (allProducts st)
    (selectedImageFile st) (admin_products_body st) (toasts st) (requests st) (backend st).

Definition set_products (ps all : list Product) (st : App) : App :=
  mkApp (currentUser st) (cart st) (stored_cart st) ps all
    (selectedImageFile st) (admin_products_body st) (toasts st) (requests st) (backend st).

Definition set_selectedImageFile (f : option File) (st : App) : App :=
  mkApp (currentUser st) (cart st) (stored_cart st) (products st) (allProducts st)
    f (admin_products_body st) (toasts st) (requests st) (backend st).

Definition showToast (message : string) (kind : ToastKind) (st : App) : App :=
  mkApp (currentUser st) (cart st) (stored_cart st) (products st) (allProducts st)
    (selectedImageFile st) (admin_products_body st) (toasts st ++ [(message, kind)])
    (requests st) (backend st).

(** ** Analytics: grouping into an object *)

(** The names a plain object inherits.  Reading one of them from an
    object that has no such property of its own does not give
    [undefined], and [(obj[key] || 0) + x] is then no number: such keys
    are outside this embedding, and [obj_add] answers [None] for them. *)
Definition inherited_names : list string :=
  ["constructor"; "__proto__"; "hasOwnProperty"; "isPrototypeOf";
   "propertyIsEnumerable"; "toLocaleString"; "toString"; "valueOf";
   "__defineGetter__"; "__defineSetter__"; "__lookupGetter__"; "__lookupSetter__"].

Fixpoint parse_digits (acc : N) (s : string) : N :=
  match s with
  | EmptyString => acc
  | String a s' => parse_digits (acc * 10 + (N_of_ascii a - 48)) s'
  end.

(** The array index a property name stands for, if it is one: the
    decimal writing, without leading zeros, of a number below 2^32 - 1. *)
Definition array_index (key : string) : option N :=
  let n := parse_digits 0 key in
  if decide (pretty n = key ∧ (n < 2 ^ 32 - 1)%N) then Some n else None.

(** The distinct names of a list, each at its first place. *)
Definition first_seen (keys : list string) : list string :=
  reverse (remove_dups (reverse keys)).

(** Among array indices, the smaller goes first. *)
Definition index_order (a b : string) : Prop :=
  (default 0 (array_index a) ≤ default 0 (array_index b))%N.

(** [listing] is how JavaScript lists the properties created in the
    order [names]: first those that are array indices, in ascending
    order, then the others as they were created. *)
Definition listed (names listing : list string) : Prop :=
  ∃ indices,
    listing = indices ++ filter (λ k, array_index k = None) names
    ∧ indices ≡ₚ filter (λ k, is_Some (array_index k)) names
    ∧ Sorted index_order indices.

Section Objects.

(** A plain object is the list of its own properties in the order they
    were created.  [V] is what it holds, and [add_to current x] is
    [(current || 0) + x], where [current] is what [obj[key]] read,
    [None] for [undefined]. *)
Context {V : Type}.
Variable add_to : option V → V → V.

(** [obj[key]], for a key that is not inherited. *)
Fixpoint obj_get (key : string) (o : list (string * V)) : option V :=
  match o with
  | [] => None
  | e :: o' => if decide (e.1 = key) then Some e.2 else obj_get key o'
  end.

(** [obj[key] = v]: an existing property keeps its place, a new one is
    created after the others. *)
Fixpoint obj_set (key : string) (v : V) (o : list (string * V)) : list (string * V) :=
  match o with
  | [] => [(key, v)]
  | e :: o' => if decide (e.1 = key) then (key, v) :: o' else e :: obj_set key v o'
  end.

(** [obj[key] = (obj[key] || 0) + x] *)
Definition obj_add (key : string) (x : V) (o : list (string * V))
    : option (list (string * V)) :=
  if decide (key ∈ inherited_names) then None
  else Some (obj_set key (add_to (obj_get key o) x) o).

Definition index_before (a b : string * V) : Prop :=
  (default 0 (array_index a.1) ≤ default 0 (array_index b.1))%N.

Global Instance index_before_dec : RelDecision index_before.
Proof. intros a b. unfold index_before. apply _. Defined.

(** The properties in the order JavaScript lists them ([Object.entries],
    [Object.keys], [for...in]): the array indices in ascending order,
    then the other names in creation order. *)
Definition object_entries (o : list (string * V)) : list (string * V) :=
  merge_sort index_before (filter (λ e, is_Some (array_index e.1)) o)
  ++ filter (λ e, array_index e.1 = None) o.

(** [forEach] over rows that each add [x] under [key]. *)
Definition accumulate (rows : list (string * V)) : option (list (string * V)) :=
  foldl (λ acc row, acc ≫= obj_add row.1 row.2) (Some []) rows.

(** What is filed under [key], in the order of the rows. *)
Definition filed (key : string) (rows : list (string * V)) : list V :=
  snd <$> filter (λ row, row.1 = key) rows.

(** What a property holds after these values were added to it in turn. *)
Definition added (xs : list V) : option V :=
  foldl (λ current x, Some (add_to current x)) None xs.

End Objects.

(** [(current || 0) + x] on numbers: [undefined], NaN and zero count as 0. *)
Definition add_number (current : option float) (x : float) : float :=
  (or_zero (default 0%float current) + x)%float.

(** The same on whole numbers. *)
Definition add_count (current : option Z) (x : Z) : Z := (default 0 current + x)%Z.

(** The sum of numbers taken from left to right, each addition rounded;
    as [|| 0] has it, a sum so far that is NaN or zero counts as 0. *)
Definition running_sum (xs : list float) : float :=
  foldl (λ sum x, (or_zero sum + x)%float) 0%float xs.

Definition Zsum (l : list Z) : Z := foldr Z.add 0%Z l.

(** A row of [select('created_at, total')] on paid orders;
    [po_total] is the number [parseFloat(order.total)]. *)
Record PaidOrder := mkPaidOrder { po_created_at : string; po_total : float }.

(** A row of [select('category, sales_count')]; both may be null.  The
    count is a whole number. *)
Record ProductSales := mkProductSales {
  ps_category : option string;
  ps_sales_count : option Z
}.

(** The reply to a [select]: an error, or [data], which may be null. *)
Inductive Rows (A : Type) :=
| RowsError (message : string)
| RowsData (data : option (list A)).
Arguments RowsError {A} message.
Arguments RowsData {A} data.

(** [product.category || 'Uncategorized'] *)
Definition category_of (p : ProductSales) : string :=
  if truthy (ps_category p) then js_string (ps_category p) else "Uncategorized".

(** [product.sales_count || 0] *)
Definition sold (p : ProductSales) : Z := default 0%Z (ps_sales_count p).

Definition sales_row (p : ProductSales) : string * Z := (category_of p, sold p).

(** [getCategoryBreakdown]; [client] tells whether a client was found.
    The result is the object [breakdown], given by its properties in the
    order JavaScript lists them; [None] when a category reads as an
    inherited name. *)
Definition getCategoryBreakdown (client : bool) (reply : Rows ProductSales)
    : option (list (string * Z)) :=
  if client then
    match reply with
    | RowsError _ => Some []
    | RowsData data =>
        object_entries <$> accumulate add_count (sales_row <$> default [] data)
    end
  else Some [].

(** A row of [select('customer_email, created_at')], the creation time
    as a number of milliseconds. *)
Record CustomerOrder := mkCustomerOrder {
  co_customer_email : option string;
  co_created_at : Z
}.

Record CustomersCount := mkCustomersCount { cc_total : nat; cc_newThisMonth : nat }.

(** [self.indexOf(email)] *)
Definition indexOf (email : option string) (self : list (option string)) : option nat :=
  (λ hit : nat * option string, hit.1) <$> list_find (λ e, e = email) self.

(** [.filter((email, index, self) => email && self.indexOf(email) === index)] *)
Definition first_occurrences (self : list (option string)) : list (option string) :=
  snd <$> filter (λ ie : nat * option string,
                    truthy ie.2 = true ∧ indexOf ie.2 self = Some ie.1)
            (imap pair self).

(** The distinct e-mail addresses of some orders, null and empty left out. *)
Definition customers_of (rows : list CustomerOrder) : list (option string) :=
  remove_dups (filter (λ e, truthy e = true) (co_customer_email <$> rows)).

(** [getCustomersCount]; [startOfMonth] in milliseconds.  The size of the
    [Set] is the number of distinct values.  With [data] null the first
    [.filter] throws, and the handler answers with zeros. *)
Definition getCustomersCount (client : bool) (startOfMonth : Z)
    (reply : Rows CustomerOrder) : CustomersCount :=
  if client then
    match reply with
    | RowsError _ => mkCustomersCount 0 0
    | RowsData data =>
        let rows := default [] data in
        let uniqueCustomers := customers_of rows in
        let newThisMonth :=
          length (first_occurrences
                    (co_customer_email
                       <$> filter (λ o, (startOfMonth ≤ co_created_at o)%Z) rows)) in
        mkCustomersCount (length uniqueCustomers) newThisMonth
    end
  else mkCustomersCount 0 0.

(** ** Analytics: CSV export *)

Definition newline : string := String "010"%char EmptyString.
Definition comma : string := ",".

(** [[headers.join(','), ...rows.map(row => row.join(','))].join('\n')] *)
Definition csv_of (headers : list string) (rows : list (list string)) : string :=
  String.concat newline (String.concat comma headers :: (String.concat comma <$> rows)).

(** How [join] writes a value that may be null: as nothing. *)
Definition joined (v : option string) : string := default "" v.


Definition count_char (c : ascii) (s : string) : nat :=
  length (filter (λ a, a = c) (String.list_ascii_of_string s)).

(** Reading such a file: cut at every [c]. *)
Fixpoint split_on (c : ascii) (s : string) : list string :=
  match s with
  | EmptyString => [EmptyString]
  | String a s' =>
      if decide (a = c) then EmptyString :: split_on c s'
      else
        match split_on c s' with
        | piece :: pieces => String a piece :: pieces
        | [] => [String a EmptyString]
        end
  end.




Record ProductExport := mkProductExport {
  pe_sku : option string;
  pe_name : option string;
  pe_category : option string;
  pe_price : option float;
  pe_stock : option float;
  pe_sales_count : option float;
  pe_views : option float
}.


Definition products_headers : list string :=
  ["SKU"; "Name"; "Category"; "Price"; "Stock"; "Sales Count"; "Views"].

Section CsvExport.

(** How the runtime writes a number and a date; both depend on the value
    and, for dates, on the locale. *)
Variable number_text : float → string.
Variable toLocaleDateString : string → string.

(** How [join] writes a number that may be null. *)
Definition joined_number (v : option float) : string := from_option number_text "" v.


(** [product.sales_count || 0]: 0 for null and for 0. *)
Definition product_fields (p : ProductExport) : list string :=
  [joined (pe_sku p); joined (pe_name p); joined (pe_category p);
   joined_number (pe_price p); joined_number (pe_stock p);
   number_text (or_zero (default 0%float (pe_sales_count p)));
   number_text (or_zero (default 0%float (pe_views p)))].

(** What an export ends with: the file handed to [downloadCSV], if any,
    and the notification. *)
Definition Exported : Type := option (string * string) * (string * ToastKind).


Definition exportProductsCSV (client : bool) (reply : Rows ProductExport) : Exported :=
  if client then
    match reply with
    | RowsData (Some data) =>
        (Some (csv_of products_headers (product_fields <$> data), "products_export.csv"),
         ("Products exported successfully!", success))
    | _ => (None, ("Failed to export products", error))
    end
  else (None, ("Database connection not available", error)).

(** [getRevenueByPeriod]: the paid orders of the period, oldest first,
    grouped by the local date of their creation.  [None] when a date reads
    as an inherited name. *)
Definition revenue_row (o : PaidOrder) : string * float :=
  (toLocaleDateString (po_created_at o), po_total o).

Definition getRevenueByPeriod (client : bool) (reply : Rows PaidOrder)
    : option (list (string * float)) :=
  if client then
    match reply with
    | RowsError _ => Some []
    | RowsData data =>
        object_entries <$> accumulate add_number (revenue_row <$> default [] data)
    end
  else Some [].

End CsvExport.

(** ** Sample data

    The seed rows of [seedDatabase] and a few states, used to run the
    handlers on concrete inputs. *)

Module Sample.

(** The number written [units / cents]: the nearest to the quotient. *)
Definition price (units : Z) (cents : positive) : float :=
  (number_of_Z units / number_of_Z (Z.pos cents))%float.

Definition oxford : Product :=
  mkProduct "p-oxford" "Classic Oxford Shirt" "Timeless oxford weave shirt"
    (price 8999 100) "formal" "oxford.jpg" (Some ["S"; "M"; "L"; "XL"]) 50 "OXF-001" true.

Definition linen : Product :=
  mkProduct "p-linen" "Linen Summer Shirt" "Breathable linen shirt"
    (price 75 1) "casual" "linen.jpg" (Some ["S"; "M"; "L"; "XL"; "XXL"]) 35 "LIN-002" true.

Definition flannel : Product :=
  mkProduct "p-flannel" "Flannel Casual Shirt" "Cozy flannel shirt"
    (price 68 1) "casual" "flannel.jpg" (Some ["M"; "L"; "XL"; "XXL"]) 28 "FLN-004" false.

Definition alice : User := mkUser "u-alice" "alice@example.org".

Definition empty_backend : Backend := mkBackend [oxford; linen; flannel] [] [] 1.

(** Alice has one oxford shirt (M) and two linen shirts (L) in her cart. *)
Definition alice_rows : list CartRow :=
  [mkCartRow "row-1" "u-alice" "p-oxford" 1 "M";
   mkCartRow "row-2" "u-alice" "p-linen" 2 "L"].

Definition alice_backend : Backend :=
  mkBackend [oxford; linen; flannel] alice_rows [] 3.

Definition alice_lines : list CartLine :=
  [mkLine (Some "row-1") oxford 1 "M"; mkLine (Some "row-2") linen 2 "L"].

Definition guest_lines : list CartLine :=
  [mkLine None oxford 1 "M"; mkLine None linen 2 "L"].

Definition guest_empty : App :=
  mkApp None [] None [] [] None true [] [] empty_backend.

Definition guest_shopping : App :=
  mkApp None guest_lines (Some guest_lines) [] [] None true [] [] empty_backend.

Definition alice_empty : App :=
  mkApp (Some alice) [] None [] [] None true [] [] empty_backend.

Definition alice_shopping : App :=
  mkApp (Some alice) alice_lines None [] [] None true [] [] alice_backend.

(** Oracles of the network. *)
Definition never_fails (n : nat) : bool := false.
Definition always_fails (n : nat) : bool := true.
Definition second_fails (n : nat) : bool := bool_decide (n = 1%nat).

Definition lower (c : ascii) : ascii :=
  let n := nat_of_ascii c in
  if decide (65 ≤ n ≤ 90)%nat then ascii_of_nat (n + 32) else c.

(** SQL [ILIKE] on character lists: [%] stands for any run of
    characters, [_] for any one character. *)
Fixpoint like (pattern : list ascii) : list ascii → bool :=
  match pattern with
  | [] => λ text, match text with [] => true | _ :: _ => false end
  | c :: pattern' =>
      if decide (c = "%"%char) then
        fix skip (text : list ascii) : bool :=
          like pattern' text
          || match text with [] => false | _ :: text' => skip text' end
      else
        λ text,
          match text with
          | [] => false
          | d :: text' =>
              (bool_decide (c = "_"%char) || bool_decide (lower c = lower d))
              && like pattern' text'
          end
  end.

Definition ilike (pattern name : string) : bool :=
  like (String.list_ascii_of_string pattern) (String.list_ascii_of_string name).

(** The orders behind [ORDER BY price] and [ORDER BY featured DESC]. *)
Definition cheaper (a b : Product) : Prop := Is_true (p_price a <=? p_price b)%float.
Definition featured_first (a b : Product) : Prop :=
  Is_true (implb (p_featured b) (p_featured a)).

Global Instance cheaper_dec : RelDecision cheaper.
Proof. intros a b. unfold cheaper. apply _. Defined.

Global Instance featured_first_dec : RelDecision featured_first.
Proof. intros a b. unfold featured_first. apply _. Defined.

(** An [ORDER BY] by merge sort; the table is kept oldest first, so
    newest first is the table reversed. *)
Definition order_rows (k : SortKey) (rows : list Product) : list Product :=
  match k with
  | PriceAsc => merge_sort cheaper rows
  | PriceDesc => merge_sort (flip cheaper) rows
  | FeaturedDesc => merge_sort featured_first rows
  | CreatedDesc => reverse rows
  end.

Definition image : File := mkFile "shirt.png" "image/png" 204800.
Definition document : File := mkFile "notes.pdf" "application/pdf" 1024.
Definition poster : File := mkFile "poster.png" "image/png" (6 * 1024 * 1024).

(** The reply to the read of [loadCart] for alice. *)
Definition alice_joined : list (CartRow * Product) := zip alice_rows [oxford; linen].

(** Rows for the analytics module, with a date and a number format to
    stand for the runtime's: the day of an ISO time stamp, and the whole
    part of a number. *)
Definition sales : list ProductSales :=
  [mkProductSales (Some "shirts") (Some 3%Z);
   mkProductSales (Some "10") (Some 4%Z);
   mkProductSales None (Some 2%Z);
   mkProductSales (Some "shirts") None;
   mkProductSales (Some "2") (Some 1%Z)].

Definition paid : list PaidOrder :=
  [mkPaidOrder "2024-01-02T10:00:00Z" (price 1 10);
   mkPaidOrder "2024-01-03T09:00:00Z" 7%float;
   mkPaidOrder "2024-01-02T18:30:00Z" (price 2 10)].

Definition day (created_at : string) : string := String.substring 0 10 created_at.
Definition whole (x : float) : string :=
  from_option (λ v, pretty (Qfloor v)) "NaN" (exact x).


Definition exported_products : list ProductExport :=
  [mkProductExport (Some "SKU-1") (Some "Shirt, blue") (Some "shirts")
     (Some 20%float) (Some 4%float) None None].

End Sample.

Section Storefront.

(** [fails n]: the [n]-th request of the client (counting from 0) fails
    in transit and comes back as [{ error }]. *)
Variable fails : nat → bool.

(** [ilike pattern name]: the backend's case-insensitive pattern match. *)
Variable ilike : string → string → bool.

(** [order_rows k rows]: the backend's [ORDER BY]; ties are in no
    specified order, so only a permutation is known of it. *)
Variable order_rows : SortKey → list Product → list Product.

Definition matches_category (category : option string) (p : Product) : bool :=
  match category with
  | Some c => bool_decide (p_category p = c)
  | None => true
  end.

Definition matches_search (search : option string) (p : Product) : bool :=
  match search with
  | Some s => ilike ("%" +:+ s +:+ "%") (p_name p)
  | None => true
  end.

Definition select_products (category search : option string) (k : SortKey)
    (tbl : list Product) : list Product :=
  order_rows k
    (filter (λ p, matches_search search p = true)
       (filter (λ p, matches_category category p = true) tbl)).

(** What the backend does with a request that reached it. *)
Definition backend_exec (r : Request) (be : Backend) : Backend * Reply :=
  match r with
  | SelectProducts category search k =>
      (be, RepProducts (select_products category search k (be_products be)))
  | InsertCartItem user product quantity size =>
      (* [cart_items.product_id] references [products]; the reply embeds
         the referenced row ([select('*, products( * )')]) *)
      match list_find (λ p, p_id p = product) (be_products be) with
      | Some (_, joined) =>
          let row := mkCartRow (fresh_id (be_next be)) user product quantity size in
          (mkBackend (be_products be) (be_cart_items be ++ [row]) (be_orders be)
             (N.succ (be_next be)),
           RepCartRow row joined)
      | None => (be, RepError "violates foreign key constraint")
      end
  | UpdateCartQuantity id quantity =>
      (mkBackend (be_products be) (set_row_quantity id quantity <$> be_cart_items be)
         (be_orders be) (be_next be),
       RepDone)
  | DeleteCartItem id =>
      (mkBackend (be_products be) (filter (λ r, r_id r ≠ id) (be_cart_items be))
         (be_orders be) (be_next be),
       RepDone)
  | DeleteCartOfUser user =>
      (mkBackend (be_products be) (filter (λ r, r_user_id r ≠ user) (be_cart_items be))
         (be_orders be) (be_next be),
       RepDone)
  | InsertOrder o =>
      let row := mkOrderRow (fresh_id (be_next be)) (Some (od_user_id o))
                   (od_items o) (od_total o) (od_status o) in
      (mkBackend (be_products be) (be_cart_items be) (be_orders be ++ [row])
         (N.succ (be_next be)),
       RepOrder row)
  | UpdateProduct id pd =>
      (mkBackend (update_product_row id pd <$> be_products be) (be_cart_items be)
         (be_orders be) (be_next be),
       RepDone)
  | InsertProduct pd =>
      let id := default (fresh_id (be_next be)) (pd_id pd) in
      (mkBackend (be_products be ++ [apply_product_data pd (blank_product id)])
         (be_cart_items be) (be_orders be) (N.succ (be_next be)),
       RepDone)
  end.

(** [await supabase.from(...)...]: one round trip. *)
Definition send (r : Request) (st : App) : App * Reply :=
  let '(be, reply) :=
    if fails (length (requests st))
    then (backend st, RepError "request failed")
    else backend_exec r (backend st) in
  let ok := match reply with RepError _ => false | _ => true end in
  (mkApp (currentUser st) (cart st) (stored_cart st) (products st) (allProducts st)
     (selectedImageFile st) (admin_products_body st) (toasts st)
     (requests st ++ [(r, ok)]) be,
   reply).

(** [localStorage.setItem('cart', JSON.stringify(cart))] *)
Definition save_cart_locally (st : App) : App := set_stored_cart (Some (cart st)) st.

(** ** Cart *)

(** The test of [cart.find] in [addToCart]. *)
Definition same_line (product size : string) (item : CartLine) : Prop :=
  p_id (l_product item) = product ∧ l_size item = size.

Global Instance same_line_dec product size item : Decision (same_line product size item).
Proof. unfold same_line. apply _. Defined.

Definition add_quantity (quantity : Z) (item : CartLine) : CartLine :=
  mkLine (l_id item) (l_product item) (l_quantity item + quantity)%Z (l_size item).

Definition with_quantity (quantity : Z) (item : CartLine) : CartLine :=
  mkLine (l_id item) (l_product item) quantity (l_size item).

Definition addToCart (product : Product) (size : string) (quantity : Z) (st : App)
    : Completion * App :=
  match currentUser st with
  | Some user =>
      match list_find (same_line (p_id product) size) (cart st) with
      | Some (i, existingItem) =>
          let '(st1, reply) :=
            send (UpdateCartQuantity (js_string (l_id existingItem))
                    (l_quantity existingItem + quantity)%Z) st in
          match reply with
          | RepError _ => (Returned, showToast "Error adding to cart" error st1)
          | _ =>
              (Returned,
               showToast (p_name product +:+ " added to cart!") success
                 (set_cart (alter (add_quantity quantity) i (cart st1)) st1))
          end
      | None =>
          let '(st1, reply) :=
            send (InsertCartItem (u_id user) (p_id product) quantity size) st in
          match reply with
          | RepCartRow row joined =>
              (Returned,
               showToast (p_name product +:+ " added to cart!") success
                 (set_cart
                    (cart st1 ++ [mkLine (Some (r_id row)) joined (r_quantity row) (r_size row)])
                    st1))
          | _ => (Returned, showToast "Error adding to cart" error st1)
          end
      end
  | None =>
      let c :=
        match list_find (same_line (p_id product) size) (cart st) with
        | Some (i, _) => alter (add_quantity quantity) i (cart st)
        | None => cart st ++ [mkLine None product quantity size]
        end in
      (Returned,
       showToast (p_name product +:+ " added to cart!") success
         (save_cart_locally (set_cart c st)))
  end.

(** The part of [removeFromCart] after the backend call. *)
Definition splice_line (index : nat) (st : App) : App :=
  let st1 := set_cart (delete index (cart st)) st in
  match currentUser st1 with
  | Some _ => st1
  | None => save_cart_locally st1
  end.

Definition removeFromCart (index : nat) (st : App) : Completion * App :=
  match currentUser st with
  | Some _ =>
      match cart st !! index with
      | None => (Threw TypeError, st)          (* [cart[index].id] of undefined *)
      | Some line =>
          if truthy (l_id line) then
            let '(st1, reply) := send (DeleteCartItem (js_string (l_id line))) st in
            match reply with
            | RepError _ => (Returned, showToast "Error removing item" error st1)
            | _ => (Returned, splice_line index st1)
            end
          else (Returned, splice_line index st)
      end
  | None => (Returned, splice_line index st)
  end.

(** The part of [updateCartQuantity] after the backend call. *)
Definition assign_quantity (index : nat) (newQuantity : Z) (st : App) : Completion * App :=
  match cart st !! index with
  | None => (Threw TypeError, st)              (* [cart[index].quantity = ...] *)
  | Some _ =>
      let st1 := set_cart (alter (with_quantity newQuantity) index (cart st)) st in
      (Returned,
       match currentUser st1 with
       | Some _ => st1
       | None => save_cart_locally st1
       end)
  end.

Definition updateCartQuantity (index : nat) (newQuantity : Z) (st : App)
    : Completion * App :=
  if decide (newQuantity < 1)%Z then removeFromCart index st
  else
    match currentUser st with
    | Some _ =>
        match cart st !! index with
        | None => (Threw TypeError, st)
        | Some line =>
            if truthy (l_id line) then
              let '(st1, reply) :=
                send (UpdateCartQuantity (js_string (l_id line)) newQuantity) st in
              match reply with
              | RepError _ => (Returned, showToast "Error updating quantity" error st1)
              | _ => assign_quantity index newQuantity st1
              end
            else assign_quantity index newQuantity st
        end
    | None => assign_quantity index newQuantity st
    end.

(** ** [addToCart] around its [await]

    [addToCart] above is a call that settles before any other handler
    runs.  Here are its two halves: up to the [await], when the request
    has left, and from the reply on.  Between the two the browser runs
    whatever handler is due, so that calls can overlap.

    [existingItem] is kept as its place in the array: calls of
    [addToCart] only append to it, so that, as long as only such calls
    overlap, the place names the object. *)
Inductive Suspended :=
| AwaitUpdate (product : Product) (quantity : Z) (place : nat) (reply : Reply)
| AwaitInsert (product : Product) (reply : Reply).

(** Up to the [await]; a guest's call has none and runs to its end. *)
Definition addToCart_start (product : Product) (size : string) (quantity : Z)
    (st : App) : App * option Suspended :=
  match currentUser st with
  | Some user =>
      match list_find (same_line (p_id product) size) (cart st) with
      | Some (i, existingItem) =>
          let '(st1, reply) :=
            send (UpdateCartQuantity (js_string (l_id existingItem))
                    (l_quantity existingItem + quantity)%Z) st in
          (st1, Some (AwaitUpdate product quantity i reply))
      | None =>
          let '(st1, reply) :=
            send (InsertCartItem (u_id user) (p_id product) quantity size) st in
          (st1, Some (AwaitInsert product reply))
      end
  | None =>
      let c :=
        match list_find (same_line (p_id product) size) (cart st) with
        | Some (i, _) => alter (add_quantity quantity) i (cart st)
        | None => cart st ++ [mkLine None product quantity size]
        end in
      (showToast (p_name product +:+ " added to cart!") success
         (save_cart_locally (set_cart c st)),
       None)
  end.

(** From the reply on. *)
Definition addToCart_resume (s : Suspended) (st : App) : Completion * App :=
  match s with
  | AwaitUpdate product quantity i reply =>
      match reply with
      | RepError _ => (Returned, showToast "Error adding to cart" error st)
      | _ =>
          (Returned,
           showToast (p_name product +:+ " added to cart!") success
             (set_cart (alter (add_quantity quantity) i (cart st)) st))
      end
  | AwaitInsert product reply =>
      match reply with
      | RepCartRow row joined =>
          (Returned,
           showToast (p_name product +:+ " added to cart!") success
             (set_cart
                (cart st ++ [mkLine (Some (r_id row)) joined (r_quantity row) (r_size row)])
                st))
      | _ => (Returned, showToast "Error adding to cart" error st)
      end
  end.

(** What happens in the page while calls of [addToCart] are under way: a
    click on "add to cart" starts a call, and the reply of the [k]-th of
    the calls that wait lets that call go on. *)
Inductive Event :=
| Click (product : Product) (size : string) (quantity : Z)
| Settle (k : nat).

Definition step (w : App * list Suspended) (e : Event) : App * list Suspended :=
  match e with
  | Click product size quantity =>
      let '(st1, s) := addToCart_start product size quantity w.1 in
      (st1, w.2 ++ option_list s)
  | Settle k =>
      match w.2 !! k with
      | Some s => ((addToCart_resume s w.1).2, delete k w.2)
      | None => w
      end
  end.

Definition run_events (events : list Event) (st : App) : App * list Suspended :=
  foldl step (st, []) events.

(** Calls one after the other: each settles before the next click. *)
Definition one_by_one (product : Product) (size : string) (quantities : list Z)
    : list Event :=
  quantities ≫= λ quantity, [Click product size quantity; Settle 0].

(** No call is left waiting when the events are over. *)
Definition all_settled (events : list Event) (st : App) : Prop :=
  (run_events events st).2 = [].

(** ** Checkout *)

(** The callback of [cart.reduce] in [processCheckout]. *)
Definition add_line_total (sum : float) (item : CartLine) : float :=
  (sum + p_price (l_product item) * number_of_Z (l_quantity item))%float.

Definition cart_total (c : list CartLine) : float := foldl add_line_total 0%float c.

(** The callback of [cart.map] in [processCheckout]. *)
Definition snapshot (item : CartLine) : OrderItem :=
  mkOrderItem (p_id (l_product item)) (p_name (l_product item)) (l_quantity item)
    (l_size item) (p_price (l_product item)) (p_image_url (l_product item)).

Definition order_data (user : User) (c : list CartLine) : OrderData :=
  mkOrderData (u_id user) (snapshot <$> c) (cart_total c) "pending".

(** [cart = []; localStorage.removeItem('cart')] *)
Definition clear_cart (st : App) : App := set_stored_cart None (set_cart [] st).

Definition processCheckout (st : App) : Completion * App :=
  match cart st with
  | [] => (Returned, showToast "Your cart is empty" error st)
  | _ :: _ =>
      match currentUser st with
      | None => (Returned, showToast "Please login to checkout" error st)
      | Some user =>
          let '(st1, reply) := send (InsertOrder (order_data user (cart st))) st in
          match reply with
          | RepError message =>
              (Returned, showToast ("Error processing order: " +:+ message) error st1)
          | RepOrder _ =>
              (* the reply of the delete is not looked at *)
              let '(st2, _) := send (DeleteCartOfUser (u_id user)) st1 in
              (Returned, clear_cart st2)
          | _ =>
              (* [data[0].id] throws inside the [try], after the cart was cleared *)
              let '(st2, _) := send (DeleteCartOfUser (u_id user)) st1 in
              (Returned,
               showToast "Error processing order: data[0] is undefined" error
                 (clear_cart st2))
          end
      end
  end.

(** ** Catalog *)

Record Filters := mkFilters {
  f_category : option string;
  f_search : option string;
  f_size : option string;
  f_sort : option string
}.

Definition no_filters : Filters := mkFilters None None None None.

(** [if (filters.x) query = query...(filters.x)] *)
Definition when_truthy (v : option string) : option string :=
  if truthy v then v else None.

Definition sort_key (sort : option string) : SortKey :=
  if decide (sort = Some "price-low") then PriceAsc
  else if decide (sort = Some "price-high") then PriceDesc
  else if decide (sort = Some "popular") then FeaturedDesc
  else CreatedDesc.

(** [product.sizes && product.sizes.includes(size)] *)
Definition has_size (size : string) (p : Product) : Prop :=
  match p_sizes p with
  | Some sizes => size ∈ sizes
  | None => False
  end.

Global Instance has_size_dec size p : Decision (has_size size p).
Proof. unfold has_size. destruct (p_sizes p); apply _. Defined.

(** [data || []] *)
Definition rows_of (reply : Reply) : list Product :=
  match reply with RepProducts rows => rows | _ => [] end.

Definition loadProducts (filters : Filters) (st : App) : Completion * App :=
  let '(st1, reply) :=
    send (SelectProducts (when_truthy (f_category filters))
            (when_truthy (f_search filters)) (sort_key (f_sort filters))) st in
  match reply with
  | RepError _ => (Returned, showToast "Error loading products" error st1)
  | _ =>
      let all := rows_of reply in
      let shown :=
        if truthy (f_size filters)
        then filter (has_size (js_string (f_size filters))) all
        else all in
      (Returned, set_products shown all st1)
  end.

(** ** Admin: products *)

(** [loadAdminProducts] of the inline panel: it fetches only when the
    cache [allProducts] is empty; a failure is written into the table
    body, not notified. *)
Definition loadAdminProducts (st : App) : Completion * App :=
  if admin_products_body st then
    match allProducts st with
    | [] =>
        let '(st1, reply) := send (SelectProducts None None CreatedDesc) st in
        match reply with
        | RepError _ => (Returned, st1)
        | _ => (Returned, set_products (products st1) (rows_of reply) st1)
        end
    | _ :: _ => (Returned, st)
    end
  else (Returned, st).

Definition saveAdminProduct (productData : ProductData) (st : App) : Completion * App :=
  let updating := truthy (pd_id productData) in
  let '(st1, reply) :=
    if updating
    then send (UpdateProduct (js_string (pd_id productData)) productData) st
    else send (InsertProduct productData) st in
  match reply with
  | RepError message =>
      (Returned, showToast ("Error saving product: " +:+ message) error st1)
  | _ =>
      let st2 :=
        showToast (if updating then "Product updated successfully!"
                   else "Product created successfully!") success st1 in
      let st3 := (loadProducts no_filters st2).2 in
      loadAdminProducts st3
  end.

(** The product form of the standalone admin pages. *)
Record ProductForm := mkProductForm {
  form_product_id : option string;             (* [undefined] without the field *)
  form_name : string;
  form_sku : string;
  form_description : string;
  form_category : string;
  form_price : float;
  form_stock : Z;
  form_featured : string;
  form_image : string;
  form_sizes : list string                     (* the checked boxes *)
}.

Definition form_product_data (f : ProductForm) : ProductData :=
  mkProductData None (Some (form_name f)) (Some (form_description f))
    (Some (form_price f)) (Some (form_category f)) (Some (form_image f))
    (Some (form_sizes f)) (Some (form_stock f)) (Some (form_sku f))
    (Some (bool_decide (form_featured f = "true"))).

(** The reload after a save on the standalone pages ([loadProducts] of
    [admin.js], [loadAdminProducts] of the other page): always fetches. *)
Definition reload_admin_table (st : App) : Completion * App :=
  if admin_products_body st then
    let '(st1, reply) := send (SelectProducts None None CreatedDesc) st in
    match reply with
    | RepError _ => (Returned, st1)
    | _ => (Returned, set_products (products st1) (rows_of reply) st1)
    end
  else (Returned, st).

(** [saveProduct] of both standalone admin pages. *)
Definition saveProduct (f : ProductForm) (st : App) : Completion * App :=
  let productId := form_product_id f in
  let productData := form_product_data f in
  let updating := truthy productId in
  let '(st1, reply) :=
    if updating
    then send (UpdateProduct (js_string productId) productData) st
    else send (InsertProduct productData) st in
  match reply with
  | RepError message => (Returned, showToast ("Error: " +:+ message) error st1)
  | _ =>
      reload_admin_table
        (showToast (if updating then "Product updated successfully"
                    else "Product added successfully") success st1)
  end.

(** ** Admin: image picker *)

Definition max_image_size : Z := 5 * 1024 * 1024.

(** The [change] listener of [#product-image-file]; [files] is
    [e.target.files]. *)
Definition on_image_file_change (files : list File) (st : App) : App :=
  match files with
  | [] => st
  | file :: _ =>
      if negb (String.prefix "image/" (file_type file))
      then showToast "Please select an image file" error st
      else if decide (file_size file > max_image_size)%Z
      then showToast "Image must be less than 5MB" error st
      else set_selectedImageFile (Some file) st
  end.

(** ** Vocabulary of the statements *)

(** The three cart mutations as commands, each a call that settles
    before any other handler runs. *)
Inductive CartOp :=
| Add (product : Product) (size : string) (quantity : Z)
| Remove (index : nat)
| SetQuantity (index : nat) (quantity : Z).

Definition run_op (op : CartOp) (st : App) : Completion * App :=
  match op with
  | Add product size quantity => addToCart product size quantity st
  | Remove index => removeFromCart index st
  | SetQuantity index quantity => updateCartQuantity index quantity st
  end.

(** The line a command addresses exists. *)
Definition addresses_line (op : CartOp) (st : App) : Prop :=
  match op with
  | Add _ _ _ => True
  | Remove index | SetQuantity index _ => (index < length (cart st))%nat
  end.

(** The lines of a cart for one (product, size) pair. *)
Definition lines_of (product size : string) (c : list CartLine) : list CartLine :=
  filter (same_line product size) c.

(** [addToCart] called once per quantity, in order. *)
Definition add_all (product : Product) (size : string) (quantities : list Z)
    (st : App) : App :=
  foldl (λ s quantity, (addToCart product size quantity s).2) st quantities.

(** The journal entries written between two states. *)
Definition issued (before after : App) : list (Request * bool) :=
  drop (length (requests before)) (requests after).

Definition all_succeeded (before after : App) : Prop :=
  Forall (λ e, e.2 = true) (issued before after).

(** Σ price × quantity over the lines: the product for each line, and
    their sum taken from 0 in the order of the cart, every operation
    rounded as the numbers of JavaScript are. *)
Definition line_total (item : CartLine) : float :=
  (p_price (l_product item) * number_of_Z (l_quantity item))%float.

Definition sum_of_line_totals (c : list CartLine) : float :=
  foldl PrimFloat.add 0%float (line_total <$> c).

(** Saving a list of product edits, one after the other. *)
Definition save_all (edits : list ProductData) (st : App) : App :=
  foldl (λ s pd, (saveAdminProduct pd s).2) st edits.

(** The writes to [products] among journal entries. *)
Definition is_product_write (e : Request * bool) : Prop :=
  match e.1 with
  | UpdateProduct _ _ | InsertProduct _ => True
  | _ => False
  end.

Global Instance is_product_write_dec e : Decision (is_product_write e).
Proof. unfold is_product_write. destruct (e.1); apply _. Defined.

Definition product_writes (journal : list (Request * bool)) : list Request :=
  fst <$> filter is_product_write journal.

(** The value [v] of an [id] key, or of the form's id field, is the
    identifier [id]: it is there and it is a non-empty string. *)
Definition identifier (v : option string) (id : string) : Prop :=
  v = Some id ∧ id ≠ "".

(** The cart rows of one user. *)
Definition rows_of_user (user : string) (be : Backend) : list CartRow :=
  filter (λ r, r_user_id r = user) (be_cart_items be).

(** An order item that holds, by value, what the cart line holds. *)
Definition copy_of (item : CartLine) (oi : OrderItem) : Prop :=
  oi_product_id oi = p_id (l_product item)
  ∧ oi_name oi = p_name (l_product item)
  ∧ oi_quantity oi = l_quantity item
  ∧ oi_size oi = l_size item
  ∧ oi_price oi = p_price (l_product item)
  ∧ oi_image_url oi = p_image_url (l_product item).

(** The requests that write to [orders]. *)
Definition is_order_write (e : Request * bool) : Prop :=
  match e.1 with
  | InsertOrder _ => True
  | _ => False
  end.

(** What the filters of the catalog ask of a product: to be of the
    category, when one is given; to have the search text in its name,
    when one is given; to come in the size.  An empty text asks nothing. *)
Definition in_category (filters : Filters) (p : Product) : Prop :=
  match f_category filters with
  | Some c => c ≠ "" → p_category p = c
  | None => True
  end.

Definition name_matches (filters : Filters) (p : Product) : Prop :=
  match f_search filters with
  | Some s => s ≠ "" → ilike ("%" +:+ s +:+ "%") (p_name p) = true
  | None => True
  end.

Definition offers_size (size : string) (p : Product) : Prop :=
  ∃ sizes, p_sizes p = Some sizes ∧ size ∈ sizes.

Global Instance in_category_dec filters p : Decision (in_category filters p).
Proof. unfold in_category. destruct (f_category filters); apply _. Defined.

Global Instance name_matches_dec filters p : Decision (name_matches filters p).
Proof. unfold name_matches. destruct (f_search filters); apply _. Defined.

Global Instance offers_size_dec size p : Decision (offers_size size p).
Proof.
  unfold offers_size. destruct (p_sizes p) as [sizes|].
  - destruct (decide (size ∈ sizes)) as [Hin|Hout].
    + left. by exists sizes.
    + right. intros (sizes' & [= <-] & Hin). by destruct Hout.
  - right. by intros (sizes & [=] & _).
Defined.

(** The order the [sort] option asks for. *)
Definition asked_order (filters : Filters) (k : SortKey) : Prop :=
  (f_sort filters = Some "price-low" → k = PriceAsc)
  ∧ (f_sort filters = Some "price-high" → k = PriceDesc)
  ∧ (f_sort filters = Some "popular" → k = FeaturedDesc)
  ∧ (f_sort filters ∉ [Some "price-low"; Some "price-high"; Some "popular"]
     → k = CreatedDesc).

(** The rows of a reply that give a line for a (product, size) pair. *)
Definition rows_for (product size : string) (data : list (CartRow * Product))
    : list (CartRow * Product) :=
  filter (λ item, p_id item.2 = product ∧ r_size item.1 = size) data.

(** ** Cart life cycle: loading, login, logout *)

Definition set_currentUser (u : option User) (st : App) : App :=
  mkApp u (cart st) (stored_cart st) (products st) (allProducts st)
    (selectedImageFile st) (admin_products_body st) (toasts st) (requests st) (backend st).

(** The reply to [select('*, products( * )')] on [cart_items]: an error,
    or the rows, each with its product embedded.  This read is not
    written to the journal; its outcome is an argument of [loadCart]. *)
Inductive CartReply :=
| CartError (message : string)
| CartRows (data : list (CartRow * Product)).

(** The callback of [data.map] in [loadCart]. *)
Definition line_of_row (item : CartRow * Product) : CartLine :=
  mkLine (Some (r_id item.1)) item.2 (r_quantity item.1) (r_size item.1).

(** [JSON.parse(localStorage.getItem('cart')) || []] for a guest; the
    rows of the backend for a user, and nothing on an error. *)
Definition loadCart (reply : CartReply) (st : App) : Completion * App :=
  match currentUser st with
  | None => (Returned, set_cart (default [] (stored_cart st)) st)
  | Some _ =>
      match reply with
      | CartError _ => (Returned, st)
      | CartRows data => (Returned, set_cart (line_of_row <$> data) st)
      end
  end.

(** [checkAuth]: [session] is what [auth.getSession()] gave.  The role
    lookup that follows only shows or hides a button. *)
Definition checkAuth (session : option User) (reply : CartReply) (st : App)
    : Completion * App :=
  match session with
  | Some user => loadCart reply (set_currentUser (Some user) st)
  | None => (Returned, st)
  end.

(** [handleLogin]: [result] is what [auth.signInWithPassword] gave, an
    error message or the user. *)
Definition handleLogin (result : string + User) (reply : CartReply) (st : App)
    : Completion * App :=
  match result with
  | inl message => (Returned, showToast message error st)
  | inr user =>
      let st1 := (loadCart reply (set_currentUser (Some user) st)).2 in
      (Returned, showToast "Welcome back!" success st1)
  end.

(** [handleLogout]: [signOut_error] is the error of [auth.signOut()], if
    any. *)
Definition handleLogout (signOut_error : option string) (st : App) : Completion * App :=
  match signOut_error with
  | Some _ => (Returned, showToast "Error logging out" error st)
  | None =>
      (Returned,
       showToast "Logged out successfully" success
         (set_cart [] (set_currentUser None st)))
  end.

(** The module-level variables as the script initialises them, with what
    outlives a page: the stored cart, the journal and the backend. *)
Definition page_start (st : App) : App :=
  mkApp None [] (stored_cart st) [] [] None (admin_products_body st) []
    (requests st) (backend st).

(** [updateModalQuantity]: [qty] is the number shown in the modal. *)
Definition updateModalQuantity (change : Z) (qty : Z) : Z := Z.max 1 (qty + change).

(** The number shown after a series of clicks on [-] and [+]; the modal
    opens showing 1. *)
Definition modal_quantity (clicks : list Z) : Z :=
  foldl (λ qty change, updateModalQuantity change qty) 1%Z clicks.

(** [totalItems] of [updateCartUI]. *)
Definition cart_count (c : list CartLine) : Z :=
  foldl (λ sum item, (sum + l_quantity item)%Z) 0%Z c.

(** What the backend answers to the read of [loadCart]: the rows of the
    user, each with the product it references; [None] if a row references
    no product. *)
Definition join_product (be : Backend) (row : CartRow) : option (CartRow * Product) :=
  (λ hit : nat * Product, (row, hit.2))
    <$> list_find (λ p, p_id p = r_product_id row) (be_products be).

Definition select_cart_items (user : string) (be : Backend)
    : option (list (CartRow * Product)) :=
  mapM (join_product be) (rows_of_user user be).

(** What identifies a cart line, and the same read off a backend row. *)
Definition line_key (item : CartLine) : option string * string * Z * string :=
  (l_id item, p_id (l_product item), l_quantity item, l_size item).

Definition row_key (row : CartRow) : option string * string * Z * string :=
  (Some (r_id row), r_product_id row, r_quantity row, r_size row).

(** The primary key of [cart_items]: ids are distinct, never empty, and
    none is an id the backend has yet to hand out. *)
Definition cart_keys_ok (be : Backend) : Prop :=
  NoDup (r_id <$> be_cart_items be)
  ∧ Forall (λ row, r_id row ≠ ""
                   ∧ ∀ n, (be_next be ≤ n)%N → r_id row ≠ fresh_id n)
      (be_cart_items be).

(** The in-memory cart holds the rows of the user, up to order. *)
Definition in_sync (user : User) (st : App) : Prop :=
  line_key <$> cart st ≡ₚ row_key <$> rows_of_user (u_id user) (backend st)
  ∧ cart_keys_ok (backend st).

Definition positive_cart (c : list CartLine) : Prop :=
  Forall (λ item, (1 ≤ l_quantity item)%Z) c.

(** A command that adds, adds at least one. *)
Definition adds_at_least_one (op : CartOp) : Prop :=
  match op with
  | Add _ _ quantity => (1 ≤ quantity)%Z
  | _ => True
  end.

(** What a command that goes through does to the number of items. *)
Definition count_change (op : CartOp) (c : list CartLine) : Z :=
  match op with
  | Add _ _ quantity => quantity
  | Remove index => - default 0 (l_quantity <$> c !! index)
  | SetQuantity index quantity =>
      if decide (quantity < 1)%Z
      then - default 0 (l_quantity <$> c !! index)
      else quantity - default 0 (l_quantity <$> c !! index)
  end%Z.

(** The command returned and none of its requests failed. *)
Definition went_through (op : CartOp) (st : App) : Prop :=
  (run_op op st).1 = Returned ∧ all_succeeded st (run_op op st).2.

(** ** Admin: the product form of the inline panel *)

(** The fields the [submit] listener reads.  [inline_image] is the hidden
    [#product-image] field; [inline_sizes] is the list the listener makes
    of the sizes text (split at commas, trimmed, empty pieces dropped). *)
Record InlineForm := mkInlineForm {
  inline_id : string;
  inline_name : string;
  inline_description : string;
  inline_price : float;
  inline_category : string;
  inline_image : string;
  inline_sizes : list string;
  inline_stock : Z;
  inline_sku : string
}.

(** [productData] of the listener; the [id] key is set only for a
    non-empty id field. *)
Definition inline_product_data (f : InlineForm) (imageUrl : string) : ProductData :=
  mkProductData (when_truthy (Some (inline_id f))) (Some (inline_name f))
    (Some (inline_description f)) (Some (inline_price f)) (Some (inline_category f))
    (Some imageUrl) (Some (inline_sizes f)) (Some (inline_stock f))
    (Some (inline_sku f)) None.

(** [await saveAdminProduct(productData); resetImageUpload()] *)
Definition save_and_reset (f : InlineForm) (imageUrl : string) (st : App)
    : Completion * App :=
  (Returned,
   set_selectedImageFile None (saveAdminProduct (inline_product_data f imageUrl) st).2).

(** The [submit] listener of [#product-form].  [upload] is what
    [uploadImageToSupabase] ends with: the message of a storage error, or
    the public URL.  The upload goes to the storage service and is not a
    request of the journal. *)
Definition submit_product_form (f : InlineForm) (upload : string + string) (st : App)
    : Completion * App :=
  match selectedImageFile st with
  | Some _ =>
      let st1 := showToast "Uploading image..." info st in
      match upload with
      | inl message =>
          (Returned,
           showToast "Failed to upload image. Please try again." error
             (showToast ("Failed to upload image: " +:+ message) error st1))
      | inr publicUrl =>
          if truthy (Some publicUrl) then save_and_reset f publicUrl st1
          else (Returned,
                showToast "Failed to upload image. Please try again." error st1)
      end
  | None =>
      if truthy (Some (inline_image f)) then save_and_reset f (inline_image f) st
      else (Returned, showToast "Please provide an image (upload or URL)" error st)
  end.

(** The write [saveAdminProduct] issues for a payload. *)
Definition product_write (pd : ProductData) : Request :=
  if truthy (pd_id pd) then UpdateProduct (js_string (pd_id pd)) pd
  else InsertProduct pd.

(** ** Round trips *)

Lemma send_spec r st st1 reply :
  send r st = (st1, reply) →
  currentUser st1 = currentUser st ∧ cart st1 = cart st ∧
  stored_cart st1 = stored_cart st ∧ products st1 = products st ∧
  allProducts st1 = allProducts st ∧
  selectedImageFile st1 = selectedImageFile st ∧
  admin_products_body st1 = admin_products_body st ∧
  toasts st1 = toasts st ∧
  requests st1
    = requests st ++ [(r, match reply with RepError _ => false | _ => true end)] ∧
  (backend st1, reply)
    = (if fails (length (requests st))
       then (backend st, RepError "request failed")
       else backend_exec r (backend st)).
Proof.
  unfold send.
  destruct (if fails (length (requests st)) then _ else _) as [be rep] eqn:E.
  intros [= <- <-]. simpl. by repeat split.
Qed.

Lemma send_failed r st st1 message :
  send r st = (st1, RepError message) → backend st1 = backend st.
Proof.
  intros H. apply send_spec in H as (_ & _ & _ & _ & _ & _ & _ & _ & _ & H).
  destruct (fails (length (requests st))); [congruence|].
  destruct r; simpl in H; try congruence.
  destruct (list_find _ _) as [[? ?]|]; congruence.
Qed.

Lemma issued_refl st : issued st st = [].
Proof. unfold issued. by rewrite drop_all. Qed.

Lemma issued_app st st' l :
  requests st' = requests st ++ l → issued st st' = l.
Proof. unfold issued. intros ->. by rewrite drop_app_length. Qed.

(** ** Setting a quantity below one *)

(** C5. For every index, every state and every oracle, [updateCartQuantity]
    with a quantity below 1 (0 in particular) yields the same completion
    and the same state as [removeFromCart] on that index: the same
    in-memory cart, the same stored cart and the same backend rows. *)
Theorem updateCartQuantity_below_one_removes (index : nat) (newQuantity : Z) (st : App) :
  (newQuantity < 1)%Z →
  updateCartQuantity index newQuantity st = removeFromCart index st
  ∧ cart (updateCartQuantity index newQuantity st).2 = cart (removeFromCart index st).2
  ∧ stored_cart (updateCartQuantity index newQuantity st).2
    = stored_cart (removeFromCart index st).2
  ∧ be_cart_items (backend (updateCartQuantity index newQuantity st).2)
    = be_cart_items (backend (removeFromCart index st).2).
Proof.
  intros Hlt.
  assert (updateCartQuantity index newQuantity st = removeFromCart index st) as ->.
  { unfold updateCartQuantity. by case_decide. }
  done.
Qed.

(** ** Checkout guards *)

(** C6. With an empty cart, or with nobody logged in, [processCheckout]
    only notifies an error: it sends no request (so no order is inserted
    and no cart row deleted), and leaves the backend, the in-memory cart
    and the stored cart as they were. *)
Theorem processCheckout_rejects (st : App) :
  cart st = [] ∨ currentUser st = None →
  let st' := (processCheckout st).2 in
  (processCheckout st).1 = Returned
  ∧ requests st' = requests st
  ∧ backend st' = backend st
  ∧ be_orders (backend st') = be_orders (backend st)
  ∧ be_cart_items (backend st') = be_cart_items (backend st)
  ∧ cart st' = cart st
  ∧ stored_cart st' = stored_cart st
  ∧ ∃ message, toasts st' = toasts st ++ [(message, error)].
Proof.
  intros H. unfold processCheckout.
  destruct (cart st) as [|item c] eqn:Hc.
  - simpl. rewrite Hc. repeat split; eauto.
  - destruct H as [H|H]; [done|]. rewrite H. simpl. rewrite Hc.
    repeat split; eauto.
Qed.

(** ** Image picker *)

(** C10. A picked file becomes [selectedImageFile] exactly when its type
    starts with "image/" and its size is at most 5 * 1024 * 1024 bytes.
    Otherwise the handler notifies an error, sends nothing (no upload) and
    leaves [selectedImageFile] as it was. *)
Theorem on_image_file_change_checks (file : File) (rest : list File) (st : App) :
  let st' := on_image_file_change (file :: rest) st in
  let acceptable :=
    String.prefix "image/" (file_type file) = true
    ∧ (file_size file ≤ 5 * 1024 * 1024)%Z in
  (acceptable →
     selectedImageFile st' = Some file ∧ toasts st' = toasts st
     ∧ requests st' = requests st)
  ∧ (¬ acceptable →
     selectedImageFile st' = selectedImageFile st
     ∧ requests st' = requests st ∧ backend st' = backend st
     ∧ ∃ message, toasts st' = toasts st ++ [(message, error)]).
Proof.
  simpl. unfold on_image_file_change, max_image_size.
  destruct (String.prefix "image/" (file_type file)) eqn:Hp; simpl.
  - case_decide as Hs.
    + split; [intros [_ ?]; lia|]. intros _. simpl. repeat split; eauto.
    + split; [done|]. intros Hn. destruct Hn. split; [done|lia].
  - split; [intros [? _]; done|]. intros _. simpl. repeat split; eauto.
Qed.

(** ** Lists: filtering after an in-place update *)

Section ListFacts.
Context {A : Type} (P : A → Prop) `{!∀ x, Decision (P x)}.

Lemma filter_nil_find_None (l : list A) :
  filter P l = [] ↔ list_find P l = None.
Proof.
  rewrite list_find_None. induction l as [|a l IH]; [done|].
  rewrite filter_cons, Forall_cons. case_decide; [|tauto].
  split; [done|]. intros [? _]. done.
Qed.

Lemma filter_alter_found (f : A → A) (l : list A) i y :
  (∀ x, P (f x) ↔ P x) →
  list_find P l = Some (i, y) →
  ∃ rest, filter P l = y :: rest ∧ filter P (alter f i l) = f y :: rest.
Proof.
  intros Hf. revert i. induction l as [|a l IH]; intros i; [done|].
  csimpl. case_decide as Ha.
  - intros [= <- <-]. exists (filter P l). simpl.
    rewrite !filter_cons. rewrite decide_True by done.
    rewrite decide_True by (by apply Hf). done.
  - destruct (list_find P l) as [[j z]|] eqn:E; [|done].
    intros [= <- <-]. destruct (IH j eq_refl) as (rest & H1 & H2).
    exists rest. simpl.
    rewrite !filter_cons. rewrite !decide_False by done. done.
Qed.

Lemma filter_alter_length (f : A → A) (l : list A) i :
  (∀ x, P (f x) ↔ P x) →
  length (filter P (alter f i l)) = length (filter P l).
Proof.
  intros Hf. revert i. induction l as [|a l IH]; intros [|i]; simpl; try done.
  - rewrite !filter_cons.
    destruct (decide (P a)) as [Ha|Ha].
    + rewrite decide_True by (by apply Hf). done.
    + rewrite decide_False; [done|]. by rewrite Hf.
  - rewrite !filter_cons. specialize (IH i).
    destruct (decide (P a)); simpl; [f_equal|]; apply IH.
Qed.

Lemma filter_delete_length (l : list A) i :
  length (filter P (delete i l)) ≤ length (filter P l).
Proof.
  revert i. induction l as [|a l IH]; intros [|i]; simpl; try done.
  - rewrite filter_cons. case_decide; simpl; lia.
  - rewrite !filter_cons. specialize (IH i).
    destruct (decide (P a)); simpl; lia.
Qed.
End ListFacts.

(** ** Cart mutations and the journal *)

Ltac round_trip E :=
  match goal with
  | |- context [send ?r ?st] =>
      let H := fresh "Hsend" in
      destruct (send r st) as [? ?] eqn:E;
      pose proof (send_spec _ _ _ _ E) as H;
      destruct H as (?&?&?&?&?&?&?&?&?&?)
  end.

(** A journal cannot both be unchanged, or end with a success, and end
    with a failure. *)
Ltac journal_contra :=
  repeat match goal with
  | H1 : requests ?a = requests ?b, H2 : requests ?a = requests ?b ++ _ |- _ =>
      rewrite H1 in H2
  | H1 : requests ?a = requests ?b ++ _, H2 : requests ?a = requests ?b ++ _ |- _ =>
      rewrite H1 in H2; apply app_inv_head in H2; simplify_eq
  | H : requests ?a = requests ?a ++ _ |- _ =>
      apply (f_equal length) in H; rewrite length_app in H; simpl in H; lia
  end.

Lemma addToCart_backend_error product size quantity st r :
  let res := addToCart product size quantity st in
  requests res.2 = requests st ++ [(r, false)] →
  res.1 = Returned ∧ cart res.2 = cart st ∧ stored_cart res.2 = stored_cart st
  ∧ backend res.2 = backend st
  ∧ ∃ message, toasts res.2 = toasts st ++ [(message, error)].
Proof.
  simpl. unfold addToCart.
  destruct (currentUser st) as [user|]; [|simpl; intros; journal_contra].
  destruct (list_find _ (cart st)) as [[i existing]|].
  - round_trip E. destruct r0; simpl; intros Hj; try by journal_contra.
    repeat split; eauto using send_failed. exists "Error adding to cart". congruence.
  - round_trip E. destruct r0; simpl; intros Hj; try by journal_contra.
    repeat split; eauto using send_failed. exists "Error adding to cart". congruence.
Qed.

Lemma splice_line_fields index st :
  requests (splice_line index st) = requests st
  ∧ toasts (splice_line index st) = toasts st
  ∧ backend (splice_line index st) = backend st
  ∧ cart (splice_line index st) = delete index (cart st).
Proof. unfold splice_line. simpl. by destruct (currentUser st). Qed.

Lemma removeFromCart_backend_error index st r :
  let res := removeFromCart index st in
  requests res.2 = requests st ++ [(r, false)] →
  res.1 = Returned ∧ cart res.2 = cart st ∧ stored_cart res.2 = stored_cart st
  ∧ backend res.2 = backend st
  ∧ ∃ message, toasts res.2 = toasts st ++ [(message, error)].
Proof.
  simpl. unfold removeFromCart.
  pose proof (splice_line_fields index st) as (Hs & _).
  destruct (currentUser st) as [user|]; [|simpl; intros; journal_contra].
  destruct (cart st !! index) as [line|]; [|simpl; intros; journal_contra].
  destruct (truthy (l_id line)); [|simpl; intros; journal_contra].
  round_trip E.
  pose proof (splice_line_fields index a) as (Hs' & _).
  destruct r0; simpl; intros Hj; try (rewrite Hs' in Hj; by journal_contra).
  repeat split; eauto using send_failed. exists "Error removing item". congruence.
Qed.

Lemma assign_quantity_journal index quantity st :
  requests (assign_quantity index quantity st).2 = requests st.
Proof.
  unfold assign_quantity. destruct (cart st !! index); [|done].
  simpl. by destruct (currentUser st).
Qed.

Lemma updateCartQuantity_backend_error index quantity st r :
  let res := updateCartQuantity index quantity st in
  requests res.2 = requests st ++ [(r, false)] →
  res.1 = Returned ∧ cart res.2 = cart st ∧ stored_cart res.2 = stored_cart st
  ∧ backend res.2 = backend st
  ∧ ∃ message, toasts res.2 = toasts st ++ [(message, error)].
Proof.
  simpl. unfold updateCartQuantity.
  case_decide; [apply removeFromCart_backend_error|].
  destruct (currentUser st) as [user|];
    [|rewrite assign_quantity_journal; intros; journal_contra].
  destruct (cart st !! index) as [line|]; [|simpl; intros; journal_contra].
  destruct (truthy (l_id line));
    [|rewrite assign_quantity_journal; intros; journal_contra].
  round_trip E. destruct r0; rewrite ?assign_quantity_journal; simpl; intros Hj;
    try by journal_contra.
  repeat split; eauto using send_failed. exists "Error updating quantity". congruence.
Qed.

(** With nobody logged in, a mutation of an existing line returns
    normally, sends nothing and notifies no error. *)
Lemma run_op_anonymous op st :
  currentUser st = None → addresses_line op st →
  let res := run_op op st in
  res.1 = Returned ∧ requests res.2 = requests st
  ∧ stored_cart res.2 = Some (cart res.2)
  ∧ Forall (λ t, t.2 ≠ error) (drop (length (toasts st)) (toasts res.2)).
Proof.
  intros Hu Hl.
  assert (∀ index, (removeFromCart index st).1 = Returned
            ∧ requests (removeFromCart index st).2 = requests st
            ∧ stored_cart (removeFromCart index st).2
              = Some (cart (removeFromCart index st).2)
            ∧ toasts (removeFromCart index st).2 = toasts st) as Hrm.
  { intros index. unfold removeFromCart, splice_line. rewrite Hu. simpl.
    by rewrite Hu. }
  destruct op as [product size quantity|index|index quantity]; simpl in *.
  - unfold addToCart. rewrite Hu. simpl. repeat split.
    rewrite drop_app_length. by repeat constructor.
  - destruct (Hrm index) as (-> & -> & -> & ->). repeat split.
    rewrite drop_all. constructor.
  - unfold updateCartQuantity. case_decide.
    + destruct (Hrm index) as (-> & -> & -> & ->). repeat split.
      rewrite drop_all. constructor.
    + rewrite Hu. unfold assign_quantity.
      destruct (lookup_lt_is_Some_2 (cart st) index Hl) as [line ->].
      simpl. rewrite Hu. simpl. repeat split. rewrite drop_all. constructor.
Qed.

(** ** Failure of a cart mutation *)

(** C4, as amended. When the backend request of a cart mutation comes back
    with an error, the mutation is abandoned: the function still returns
    normally (the error is not handed to the caller), the in-memory cart,
    the stored cart and the backend are unchanged, and one error
    notification is shown.  With nobody logged in, a mutation that
    addresses an existing line sends no request, returns normally and
    shows no error. *)
Theorem cart_mutation_failure (op : CartOp) (st : App) :
  let res := run_op op st in
  (∀ r, requests res.2 = requests st ++ [(r, false)] →
     res.1 = Returned ∧ cart res.2 = cart st ∧ stored_cart res.2 = stored_cart st
     ∧ backend res.2 = backend st
     ∧ ∃ message, toasts res.2 = toasts st ++ [(message, error)])
  ∧ (currentUser st = None → addresses_line op st →
     res.1 = Returned ∧ requests res.2 = requests st
     ∧ Forall (λ t, t.2 ≠ error) (drop (length (toasts st)) (toasts res.2))).
Proof.
  simpl. split.
  - intros r. destruct op; simpl.
    + apply addToCart_backend_error.
    + apply removeFromCart_backend_error.
    + apply updateCartQuantity_backend_error.
  - intros Hu Hl. destruct (run_op_anonymous op st Hu Hl) as (? & ? & ? & ?).
    done.
Qed.

(** ** One line per (product, size) pair *)

Lemma same_line_add_quantity product size quantity item :
  same_line product size (add_quantity quantity item) ↔ same_line product size item.
Proof. done. Qed.

Lemma same_line_with_quantity product size quantity item :
  same_line product size (with_quantity quantity item) ↔ same_line product size item.
Proof. done. Qed.

Lemma all_succeeded_split st st1 st2 l1 l2 :
  requests st1 = requests st ++ l1 →
  requests st2 = requests st1 ++ l2 →
  all_succeeded st st2 → all_succeeded st st1 ∧ all_succeeded st1 st2.
Proof.
  intros H1 H2. unfold all_succeeded.
  rewrite (issued_app st st1 l1 H1), (issued_app st1 st2 l2 H2).
  rewrite (issued_app st st2 (l1 ++ l2)) by (by rewrite H2, H1, app_assoc).
  by rewrite Forall_app.
Qed.

(** What [addToCart] does to the cart: nothing when its request failed;
    otherwise the first line of the pair gets the quantity added, or,
    when there is none, a line of the pair with that quantity is pushed. *)
Lemma addToCart_cart product size quantity st :
  let st' := (addToCart product size quantity st).2 in
  (∃ l, requests st' = requests st ++ l)
  ∧ ((¬ all_succeeded st st' ∧ cart st' = cart st)
     ∨ match list_find (same_line (p_id product) size) (cart st) with
       | Some (i, _) => cart st' = alter (add_quantity quantity) i (cart st)
       | None =>
           ∃ line, same_line (p_id product) size line
                   ∧ l_quantity line = quantity ∧ cart st' = cart st ++ [line]
       end).
Proof.
  assert (∀ st' r, requests st' = requests st ++ [(r, false)] →
            ¬ all_succeeded st st') as Hfail.
  { intros st' r Hj Hall. unfold all_succeeded in Hall.
    rewrite (issued_app _ _ _ Hj) in Hall. by inversion Hall. }
  simpl. unfold addToCart.
  destruct (currentUser st) as [user|].
  - destruct (list_find _ (cart st)) as [[i existing]|] eqn:Hfind.
    + round_trip E. destruct r; simpl; (split; [eauto|]);
        try (right; congruence).
      left. split; [eapply Hfail; eauto|done].
    + round_trip E.
      match goal with H : (backend _, _) = _ |- _ => rename H into Hbe end.
      destruct (fails (length (requests st))).
      { injection Hbe as _ ->. simpl. split; [eauto|].
        left. split; [eapply Hfail; eauto|done]. }
      simpl in Hbe.
      destruct (list_find _ (be_products (backend st))) as [[j joined]|] eqn:Hj.
      * injection Hbe as _ ->. simpl. split; [eauto|]. right.
        apply list_find_Some in Hj as (_ & Hid & _).
        eexists. split; [|split; [|by f_equal]]; done.
      * injection Hbe as _ ->. simpl. split; [eauto|].
        left. split; [eapply Hfail; eauto|done].
  - simpl. split; [exists []; by rewrite app_nil_r|]. right.
    destruct (list_find _ (cart st)) as [[i existing]|]; [done|].
    eexists. split; [|split; [|done]]; done.
Qed.

Lemma add_all_journal product size quantities st :
  ∃ l, requests (add_all product size quantities st) = requests st ++ l.
Proof.
  revert st. induction quantities as [|q qs IH]; intros st.
  - exists []. by rewrite app_nil_r.
  - destruct (addToCart_cart product size q st) as [[l1 H1] _].
    destruct (IH (addToCart product size q st).2) as [l2 H2].
    exists (l1 ++ l2).
    change (add_all product size (q :: qs) st)
      with (add_all product size qs (addToCart product size q st).2).
    by rewrite H2, H1, app_assoc.
Qed.

Lemma add_all_present product size quantities st line :
  lines_of (p_id product) size (cart st) = [line] →
  all_succeeded st (add_all product size quantities st) →
  ∃ line', lines_of (p_id product) size (cart (add_all product size quantities st))
           = [line']
           ∧ l_quantity line' = (l_quantity line + Zsum quantities)%Z.
Proof.
  revert st line. induction quantities as [|q qs IH]; intros st line Hline Hall.
  - exists line. split; [done|]. simpl. lia.
  - destruct (addToCart_cart product size q st) as [[l1 H1] Hcart].
    destruct (add_all_journal product size qs (addToCart product size q st).2)
      as [l2 H2].
    destruct (all_succeeded_split _ _ _ _ _ H1 H2 Hall) as [Hq Hqs].
    destruct Hcart as [[Hno _]|Hcart]; [done|].
    destruct (list_find _ (cart st)) as [[i existing]|] eqn:Hfind.
    + destruct (filter_alter_found _ (add_quantity q) _ _ _
                  (same_line_add_quantity _ _ q) Hfind)
        as (rest & Hold & Hnew).
      unfold lines_of in Hline. rewrite Hold in Hline. injection Hline as -> ->.
      destruct (IH (addToCart product size q st).2 (add_quantity q line))
        as (line' & Hl & Hquantity); [by unfold lines_of; rewrite Hcart|done|].
      exists line'. split; [done|]. rewrite Hquantity. simpl. lia.
    + apply filter_nil_find_None in Hfind. unfold lines_of in Hline. congruence.
Qed.

Lemma removeFromCart_cart index st :
  let st' := (removeFromCart index st).2 in
  cart st' = cart st ∨ cart st' = delete index (cart st).
Proof.
  simpl. unfold removeFromCart.
  pose proof (splice_line_fields index st) as (_ & _ & _ & Hs).
  destruct (currentUser st); [|by right].
  destruct (cart st !! index) as [line|]; [|by left].
  destruct (truthy (l_id line)); [|by right].
  round_trip E. pose proof (splice_line_fields index a) as (_ & _ & _ & Hs').
  destruct r; simpl; try (right; congruence). by left.
Qed.

Lemma assign_quantity_cart index quantity st :
  let st' := (assign_quantity index quantity st).2 in
  cart st' = cart st ∨ cart st' = alter (with_quantity quantity) index (cart st).
Proof.
  simpl. unfold assign_quantity. destruct (cart st !! index); [|by left].
  right. simpl. by destruct (currentUser st).
Qed.

Lemma updateCartQuantity_cart index quantity st :
  let st' := (updateCartQuantity index quantity st).2 in
  cart st' = cart st ∨ cart st' = delete index (cart st)
  ∨ cart st' = alter (with_quantity quantity) index (cart st).
Proof.
  simpl. unfold updateCartQuantity.
  case_decide; [destruct (removeFromCart_cart index st); auto|].
  pose proof (assign_quantity_cart index quantity st) as Ha.
  destruct (currentUser st); [|destruct Ha; auto].
  destruct (cart st !! index) as [line|]; [|by left].
  destruct (truthy (l_id line)); [|destruct Ha; auto].
  round_trip E. pose proof (assign_quantity_cart index quantity a) as Ha'.
  destruct r; simpl; try (destruct Ha' as [->| ->]; [left|right; right]; congruence).
  by left.
Qed.

Lemma processCheckout_cart st :
  let st' := (processCheckout st).2 in cart st' = cart st ∨ cart st' = [].
Proof.
  simpl. unfold processCheckout.
  destruct (cart st) as [|item c] eqn:Hc; [by right|].
  destruct (currentUser st) as [user|]; [|by left; simpl].
  round_trip E. destruct r; simpl.
  1: left; congruence.
  all: by destruct (send (DeleteCartOfUser (u_id user)) a); right.
Qed.

Lemma run_op_no_second_line op st product size :
  lines_of product size (cart st) ≠ [] →
  length (lines_of product size (cart (run_op op st).2))
  ≤ length (lines_of product size (cart st)).
Proof.
  intros Hne. unfold lines_of in *.
  destruct op as [product0 size0 quantity|index|index quantity]; simpl.
  - destruct (addToCart_cart product0 size0 quantity st) as [_ [[_ ->]|Hcart]]; [done|].
    destruct (list_find _ (cart st)) as [[i existing]|] eqn:Hfind.
    + rewrite Hcart.
      by rewrite (filter_alter_length _ _ _ _ (same_line_add_quantity _ _ quantity)).
    + destruct Hcart as (line & [Hp Hs] & _ & ->).
      apply filter_nil_find_None in Hfind.
      rewrite filter_app, filter_cons, filter_nil.
      case_decide as Hsame; [|by rewrite app_nil_r].
      destruct Hsame as [Hp' Hs']. destruct Hne.
      by rewrite <- Hp', <- Hs', Hp, Hs.
  - destruct (removeFromCart_cart index st) as [-> | ->]; [done|].
    apply filter_delete_length.
  - destruct (updateCartQuantity_cart index quantity st) as [-> | [-> | ->]]; [done|..].
    + apply filter_delete_length.
    + by rewrite (filter_alter_length _ _ _ _ (same_line_with_quantity _ _ quantity)).
Qed.

Lemma addToCart_start_resume product size quantity st :
  addToCart product size quantity st
  = match addToCart_start product size quantity st with
    | (st1, Some s) => addToCart_resume s st1
    | (st1, None) => (Returned, st1)
    end.
Proof.
  unfold addToCart, addToCart_start.
  destruct (currentUser st) as [user|]; [|reflexivity].
  destruct (list_find _ (cart st)) as [[i existing]|].
  - destruct (send _ st) as [st1 reply]. by destruct reply.
  - destruct (send _ st) as [st1 reply]. by destruct reply.
Qed.

Lemma run_one_by_one product size quantities st :
  run_events (one_by_one product size quantities) st
  = (add_all product size quantities st, []).
Proof.
  unfold run_events, one_by_one. revert st.
  induction quantities as [|quantity quantities IH]; intros st; [done|].
  rewrite bind_cons, foldl_app.
  change (add_all product size (quantity :: quantities) st)
    with (add_all product size quantities (addToCart product size quantity st).2).
  rewrite <- IH. f_equal. simpl.
  rewrite (addToCart_start_resume product size quantity st).
  destruct (addToCart_start product size quantity st) as [st1 [s|]]; simpl; [|done].
  by destruct (addToCart_resume s st1).
Qed.

Lemma lines_of_loaded product size data :
  lines_of product size (line_of_row <$> data)
  = line_of_row <$> rows_for product size data.
Proof.
  unfold lines_of, rows_for.
  induction data as [|item data IH]; [done|].
  rewrite fmap_cons, !filter_cons, IH.
  destruct (decide (same_line product size (line_of_row item))) as [Hs|Hs];
    destruct (decide (p_id item.2 = product ∧ r_size item.1 = size)) as [Hr|Hr];
    done.
Qed.

(** C1, as amended. Start from a cart with no line for a (product, size)
    pair and call [addToCart] for that pair once per quantity of a
    non-empty list, each call settling before the next starts.  If none
    of the requests sent on the way failed (none is sent when nobody is
    logged in), the cart ends with exactly one line for the pair, whose
    quantity is the sum of the quantities.  A call of one of the three
    cart mutations that is not overlapped, a checkout and a logout add no
    line for a pair that already has one.  [loadCart] puts into the cart
    one line for every row of the reply, so as many for the pair as the
    reply has rows for it. *)
Theorem addToCart_one_line_per_pair (product : Product) (size : string) :
  (∀ quantity quantities st,
     lines_of (p_id product) size (cart st) = [] →
     let events := one_by_one product size (quantity :: quantities) in
     let st' := (run_events events st).1 in
     all_succeeded st st' →
     all_settled events st
     ∧ ∃ line, lines_of (p_id product) size (cart st') = [line]
               ∧ l_quantity line = (quantity + Zsum quantities)%Z)
  ∧ (∀ st,
     lines_of (p_id product) size (cart st) ≠ [] →
     let no_more st' :=
       length (lines_of (p_id product) size (cart st'))
       ≤ length (lines_of (p_id product) size (cart st)) in
     (∀ op, no_more (run_op op st).2)
     ∧ no_more (processCheckout st).2
     ∧ ∀ signOut_error, no_more (handleLogout signOut_error st).2)
  ∧ (∀ st user data,
     currentUser st = Some user →
     lines_of (p_id product) size (cart (loadCart (CartRows data) st).2)
     = line_of_row <$> rows_for (p_id product) size data).
Proof.
  split; [|split].
  - intros quantity quantities st Hnone events st'. subst events st'.
    unfold all_settled. rewrite run_one_by_one. simpl. intros Hall.
    split; [done|].
    destruct (addToCart_cart product size quantity st) as [[l1 H1] Hcart].
    destruct (add_all_journal product size quantities
                (addToCart product size quantity st).2) as [l2 H2].
    destruct (all_succeeded_split _ _ _ _ _ H1 H2 Hall) as [Hq Hqs].
    destruct Hcart as [[Hno _]|Hcart]; [done|].
    apply filter_nil_find_None in Hnone as Hfind. rewrite Hfind in Hcart.
    destruct Hcart as (line & Hsame & Hquantity & Hcart).
    destruct (add_all_present product size quantities
                (addToCart product size quantity st).2 line)
      as (line' & Hl & Hq'); [|done|].
    { unfold lines_of in *.
      by rewrite Hcart, filter_app, Hnone, filter_cons, decide_True. }
    exists line'. split; [done|]. by rewrite Hq', Hquantity.
  - intros st Hne. simpl. split; [|split].
    + intros op. by apply run_op_no_second_line.
    + destruct (processCheckout_cart st) as [-> | ->]; [done|]. simpl. lia.
    + intros [message|]; simpl; [done|lia].
  - intros st user data Hu. unfold loadCart. rewrite Hu. simpl.
    apply lines_of_loaded.
Qed.

(** ** Checkout: the order and the cart afterwards *)

Lemma cart_total_sum (c : list CartLine) : cart_total c = sum_of_line_totals c.
Proof.
  unfold cart_total, sum_of_line_totals. generalize 0%float.
  induction c as [|item c IH]; intros acc; [done|]. apply IH.
Qed.

Lemma snapshot_copy_of (c : list CartLine) : Forall2 copy_of c (snapshot <$> c).
Proof. induction c as [|item c IH]; constructor; [by repeat split|done]. Qed.

Lemma backend_exec_orders r be :
  (∀ o, r ≠ InsertOrder o) →
  be_orders (backend_exec r be).1 = be_orders be.
Proof.
  intros Hr. destruct r; simpl; try done.
  - by destruct (list_find _ _) as [[? ?]|].
  - by destruct (Hr o).
Qed.

Lemma send_orders r st st1 reply :
  (∀ o, r ≠ InsertOrder o) →
  send r st = (st1, reply) →
  be_orders (backend st1) = be_orders (backend st).
Proof.
  intros Hr H. apply send_spec in H as (_ & _ & _ & _ & _ & _ & _ & _ & _ & H).
  destruct (fails (length (requests st))).
  - by injection H as -> _.
  - rewrite <- (backend_exec_orders r (backend st) Hr).
    by destruct (backend_exec r (backend st)); injection H as -> _.
Qed.

Lemma loadProducts_orders filters st :
  be_orders (backend (loadProducts filters st).2) = be_orders (backend st).
Proof.
  unfold loadProducts.
  destruct (send _ st) as [st1 reply] eqn:E.
  apply send_orders in E; [|done]. by destruct reply.
Qed.

Lemma loadAdminProducts_orders st :
  be_orders (backend (loadAdminProducts st).2) = be_orders (backend st).
Proof.
  unfold loadAdminProducts.
  destruct (admin_products_body st); [|done].
  destruct (allProducts st); [|done].
  destruct (send _ st) as [st1 reply] eqn:E.
  apply send_orders in E; [|done]. by destruct reply.
Qed.

Lemma saveAdminProduct_orders pd st :
  be_orders (backend (saveAdminProduct pd st).2) = be_orders (backend st).
Proof.
  unfold saveAdminProduct.
  destruct (truthy (pd_id pd)).
  - destruct (send _ st) as [st1 reply] eqn:E.
    apply send_orders in E; [|done].
    destruct reply; simpl; try done;
      by rewrite loadAdminProducts_orders, loadProducts_orders.
  - destruct (send _ st) as [st1 reply] eqn:E.
    apply send_orders in E; [|done].
    destruct reply; simpl; try done;
      by rewrite loadAdminProducts_orders, loadProducts_orders.
Qed.

Lemma save_all_orders edits st :
  be_orders (backend (save_all edits st)) = be_orders (backend st).
Proof.
  revert st. induction edits as [|pd edits IH]; intros st; [done|].
  change (save_all (pd :: edits) st) with (save_all edits (saveAdminProduct pd st).2).
  by rewrite IH, saveAdminProduct_orders.
Qed.

Lemma loadProducts_quiet filters st :
  ∃ l, requests (loadProducts filters st).2 = requests st ++ l
       ∧ Forall (λ e, ¬ is_order_write e) l.
Proof.
  unfold loadProducts. round_trip E.
  match goal with |- ∃ l, requests ?x = _ ∧ _ =>
    assert (requests x = requests a) as -> by (by destruct r) end.
  eexists. split; [eassumption|]. apply Forall_singleton. intros Hfalse. exact Hfalse.
Qed.

Lemma loadAdminProducts_quiet st :
  ∃ l, requests (loadAdminProducts st).2 = requests st ++ l
       ∧ Forall (λ e, ¬ is_order_write e) l.
Proof.
  unfold loadAdminProducts.
  destruct (admin_products_body st); [|exists []; by rewrite app_nil_r].
  destruct (allProducts st); [|exists []; by rewrite app_nil_r].
  round_trip E.
  match goal with |- ∃ l, requests ?x = _ ∧ _ =>
    assert (requests x = requests a) as -> by (by destruct r) end.
  eexists. split; [eassumption|]. apply Forall_singleton. intros Hfalse. exact Hfalse.
Qed.

Lemma saveAdminProduct_quiet pd st :
  ∃ l, requests (saveAdminProduct pd st).2 = requests st ++ l
       ∧ Forall (λ e, ¬ is_order_write e) l.
Proof.
  unfold saveAdminProduct.
  assert (∀ w st1 reply, send w st = (st1, reply) → (∀ ok, ¬ is_order_write (w, ok)) →
    ∃ l, requests
           (match reply with
            | RepError message =>
                (Returned, showToast ("Error saving product: " +:+ message) error st1)
            | _ =>
                loadAdminProducts
                  (loadProducts no_filters
                     (showToast
                        (if truthy (pd_id pd) then "Product updated successfully!"
                         else "Product created successfully!") success st1)).2
            end).2 = requests st ++ l
         ∧ Forall (λ e, ¬ is_order_write e) l) as Hw.
  { intros w st1 reply E Hwrite.
    apply send_spec in E as (_ & _ & _ & _ & _ & _ & _ & _ & Hj & _).
    set (st2 := showToast _ success st1).
    destruct (loadProducts_quiet no_filters st2) as (l1 & H1 & Hn1).
    destruct (loadAdminProducts_quiet (loadProducts no_filters st2).2)
      as (l2 & H2 & Hn2).
    assert (∃ l, requests (loadAdminProducts (loadProducts no_filters st2).2).2
                 = requests st ++ l
                 ∧ Forall (λ e, ¬ is_order_write e) l) as Hgood.
    { eexists. split.
      - rewrite H2, H1. subst st2. simpl. rewrite Hj. by rewrite <- !app_assoc.
      - apply Forall_app. split; [apply Forall_singleton, Hwrite|].
        apply Forall_app. by split. }
    destruct reply; try exact Hgood.
    simpl. eexists. split; [exact Hj|]. apply Forall_singleton, Hwrite. }
  destruct (truthy (pd_id pd)).
  - destruct (send _ st) as [st1 reply] eqn:E. apply (Hw _ _ _ E). intros ok Hfalse. exact Hfalse.
  - destruct (send _ st) as [st1 reply] eqn:E. apply (Hw _ _ _ E). intros ok Hfalse. exact Hfalse.
Qed.

Lemma save_all_quiet edits st :
  Forall (λ e, ¬ is_order_write e) (issued st (save_all edits st)).
Proof.
  assert (∃ l, requests (save_all edits st) = requests st ++ l
               ∧ Forall (λ e, ¬ is_order_write e) l) as (l & Hl & Hq).
  { revert st. induction edits as [|pd edits IH]; intros st.
    - exists []. by rewrite app_nil_r.
    - change (save_all (pd :: edits) st)
        with (save_all edits (saveAdminProduct pd st).2).
      destruct (saveAdminProduct_quiet pd st) as (l1 & H1 & Hq1).
      destruct (IH (saveAdminProduct pd st).2) as (l2 & H2 & Hq2).
      exists (l1 ++ l2). split; [by rewrite H2, H1, app_assoc|].
      apply Forall_app. by split. }
  by rewrite (issued_app _ _ _ Hl).
Qed.

(** C2. With a non-empty cart and a logged-in user, a checkout whose
    insert succeeds adds exactly one order.  Its total is the sum over
    the cart lines, in their order, of the price held in the line times
    the quantity, in the arithmetic of JavaScript numbers.  Its items
    hold, by value and line by line, the product id, name, price and
    image of the line's product and the line's quantity and size.  No
    save of product edits afterwards sends a request that writes to
    [orders], and none changes the stored orders. *)
Theorem processCheckout_order (st : App) (user : User) :
  cart st ≠ [] → currentUser st = Some user →
  fails (length (requests st)) = false →
  let st' := (processCheckout st).2 in
  ∃ row,
    be_orders (backend st') = be_orders (backend st) ++ [row]
    ∧ o_total row = sum_of_line_totals (cart st)
    ∧ Forall2 copy_of (cart st) (o_items row)
    ∧ o_user_id row = Some (u_id user)
    ∧ o_status row = "pending"
    ∧ ∀ edits,
        Forall (λ e, ¬ is_order_write e) (issued st' (save_all edits st'))
        ∧ be_orders (backend (save_all edits st')) = be_orders (backend st').
Proof.
  intros Hc Hu Hok. simpl. unfold processCheckout.
  destruct (cart st) as [|item c] eqn:Hcart; [done|]. rewrite Hu.
  round_trip E.
  match goal with H : (backend _, _) = _ |- _ => rename H into Hbe end.
  rewrite Hok in Hbe. simpl in Hbe. injection Hbe as Hbe ->.
  destruct (send (DeleteCartOfUser (u_id user)) a) as [st2 reply2] eqn:E2.
  apply send_orders in E2; [|done]. simpl.
  eexists. split; [by rewrite E2, Hbe|]. simpl.
  split; [apply cart_total_sum|].
  split; [apply (snapshot_copy_of (item :: c))|]. repeat split.
  - apply save_all_quiet.
  - by rewrite save_all_orders.
Qed.

Lemma rows_of_user_deleted user rows :
  filter (λ r, r_user_id r = user) (filter (λ r, r_user_id r ≠ user) rows) = [].
Proof.
  induction rows as [|r rows IH]; [done|].
  rewrite (filter_cons (λ r, r_user_id r ≠ user)).
  destruct (decide (r_user_id r ≠ user)); [|done].
  by rewrite filter_cons, decide_False.
Qed.

(** C3, as amended. After a checkout whose insert succeeded, the
    in-memory cart is empty and the stored cart is removed.  The cart rows
    of the user are gone from the backend when the delete request that
    follows succeeds as well; that request's outcome is not looked at, and
    when it fails the rows stay as they were. *)
Theorem processCheckout_clears_cart (st : App) (user : User) :
  currentUser st = Some user → cart st ≠ [] →
  fails (length (requests st)) = false →
  let st' := (processCheckout st).2 in
  (processCheckout st).1 = Returned
  ∧ cart st' = [] ∧ stored_cart st' = None
  ∧ (fails (S (length (requests st))) = false →
     rows_of_user (u_id user) (backend st') = [])
  ∧ (fails (S (length (requests st))) = true →
     be_cart_items (backend st') = be_cart_items (backend st)).
Proof.
  intros Hu Hc Hok. simpl. unfold processCheckout.
  destruct (cart st) as [|item c] eqn:Hcart; [done|]. rewrite Hu.
  round_trip E.
  match goal with H : (backend _, _) = _ |- _ => rename H into Hbe end.
  match goal with H : requests a = _ |- _ => rename H into Hj end.
  rewrite Hok in Hbe. simpl in Hbe. injection Hbe as Hbe ->.
  destruct (send (DeleteCartOfUser (u_id user)) a) as [st2 reply2] eqn:E2.
  apply send_spec in E2 as (_ & _ & _ & _ & _ & _ & _ & _ & _ & Hbe2).
  rewrite Hj, length_app, Nat.add_1_r in Hbe2. simpl.
  repeat split.
  - intros Hok2. rewrite Hok2 in Hbe2. simpl in Hbe2. injection Hbe2 as -> _.
    unfold rows_of_user. simpl. apply rows_of_user_deleted.
  - intros Hko. rewrite Hko in Hbe2. injection Hbe2 as -> _. by rewrite Hbe.
Qed.

(** ** Catalog: the size filter *)

Hypothesis order_rows_perm : ∀ k rows, order_rows k rows ≡ₚ rows.

Lemma elem_of_select_products category search k tbl p :
  p ∈ select_products category search k tbl ↔
  p ∈ tbl ∧ matches_category category p = true ∧ matches_search search p = true.
Proof.
  unfold select_products. rewrite order_rows_perm, !list_elem_of_filter. tauto.
Qed.

Lemma sort_key_asked filters : asked_order filters (sort_key (f_sort filters)).
Proof.
  unfold asked_order, sort_key.
  destruct (decide (f_sort filters = Some "price-low")) as [->|H1].
  { repeat split; try done. intros Hout. destruct Hout. apply list_elem_of_here. }
  destruct (decide (f_sort filters = Some "price-high")) as [->|H2].
  { repeat split; try done. intros Hout. destruct Hout.
    apply list_elem_of_further, list_elem_of_here. }
  destruct (decide (f_sort filters = Some "popular")) as [->|H3].
  { repeat split; try done. intros Hout. destruct Hout.
    do 2 apply list_elem_of_further. apply list_elem_of_here. }
  by repeat split.
Qed.

Lemma matches_category_asked filters p :
  matches_category (when_truthy (f_category filters)) p = true ↔ in_category filters p.
Proof.
  unfold in_category, when_truthy, truthy.
  destruct (f_category filters) as [c|]; [|done].
  destruct (decide (c = "")) as [->|Hc]; simpl.
  - split; [by intros _ Hne|done].
  - rewrite bool_decide_eq_true. split; [by intros ? _|by intros H; apply H].
Qed.

Lemma matches_search_asked filters p :
  matches_search (when_truthy (f_search filters)) p = true ↔ name_matches filters p.
Proof.
  unfold name_matches, when_truthy, truthy.
  destruct (f_search filters) as [t|]; [|done].
  destruct (decide (t = "")) as [->|Ht]; simpl.
  - split; [by intros _ Hne|done].
  - split; [by intros ? _|by intros H; apply H].
Qed.

Lemma has_size_offers size p : has_size size p ↔ offers_size size p.
Proof.
  unfold has_size, offers_size. destruct (p_sizes p) as [sizes|].
  - split; [by exists sizes|by intros (sizes' & [= <-] & Hin)].
  - split; [done|by intros (sizes & [=] & _)].
Qed.

(** C7. When the fetch succeeds and a size is given, [loadProducts]
    keeps in [allProducts] the rows of the table that are of the
    category asked for and have the search text in their name, in the
    order asked for, and shows exactly those of them that come in the
    size, in the fetched order: a product is shown if and only if it is a
    row of the table that passes the category filter, the search filter
    and the size test. *)
Theorem loadProducts_size_filter (filters : Filters) (size : string) (st : App) :
  f_size filters = Some size → size ≠ "" →
  fails (length (requests st)) = false →
  let st' := (loadProducts filters st).2 in
  ∃ k,
    asked_order filters k
    ∧ allProducts st'
      = order_rows k
          (filter (λ p, name_matches filters p ∧ in_category filters p)
             (be_products (backend st)))
    ∧ products st' = filter (offers_size size) (allProducts st')
    ∧ ∀ p, p ∈ products st' ↔
           p ∈ be_products (backend st)
           ∧ in_category filters p ∧ name_matches filters p
           ∧ offers_size size p.
Proof.
  intros Hsize Hne Hok. simpl.
  assert (allProducts (loadProducts filters st).2
          = select_products (when_truthy (f_category filters))
              (when_truthy (f_search filters)) (sort_key (f_sort filters))
              (be_products (backend st))
          ∧ products (loadProducts filters st).2
            = filter (has_size size) (allProducts (loadProducts filters st).2))
    as [Hall Hshown].
  { unfold loadProducts. round_trip E.
    match goal with H : (backend _, _) = _ |- _ => rename H into Hbe end.
    rewrite Hok in Hbe. simpl in Hbe. injection Hbe as _ ->. simpl.
    rewrite Hsize. simpl. by rewrite decide_False. }
  assert (select_products (when_truthy (f_category filters))
            (when_truthy (f_search filters)) (sort_key (f_sort filters))
            (be_products (backend st))
          = order_rows (sort_key (f_sort filters))
              (filter (λ p, name_matches filters p ∧ in_category filters p)
                 (be_products (backend st)))) as Hselect.
  { unfold select_products. f_equal. rewrite list_filter_filter.
    apply list_filter_iff. intros p.
    by rewrite matches_category_asked, matches_search_asked. }
  exists (sort_key (f_sort filters)).
  split; [apply sort_key_asked|].
  split; [by rewrite Hall|].
  split; [rewrite Hshown; apply list_filter_iff, has_size_offers|].
  intros p. rewrite Hshown, Hall, list_elem_of_filter, elem_of_select_products.
  rewrite matches_category_asked, matches_search_asked, has_size_offers. tauto.
Qed.

(** ** Admin: update or insert *)

Lemma product_writes_app l1 l2 :
  product_writes (l1 ++ l2) = product_writes l1 ++ product_writes l2.
Proof. unfold product_writes. by rewrite filter_app, fmap_app. Qed.

Lemma loadProducts_journal filters st :
  ∃ l, requests (loadProducts filters st).2 = requests st ++ l
       ∧ product_writes l = [].
Proof.
  unfold loadProducts. round_trip E.
  match goal with |- ∃ l, requests ?x = _ ∧ _ =>
    assert (requests x = requests a) as -> by (by destruct r) end.
  eexists. split; [eassumption|done].
Qed.

Lemma loadAdminProducts_journal st :
  ∃ l, requests (loadAdminProducts st).2 = requests st ++ l
       ∧ product_writes l = [].
Proof.
  unfold loadAdminProducts.
  destruct (admin_products_body st); [|exists []; by rewrite app_nil_r].
  destruct (allProducts st); [|exists []; by rewrite app_nil_r].
  round_trip E.
  match goal with |- ∃ l, requests ?x = _ ∧ _ =>
    assert (requests x = requests a) as -> by (by destruct r) end.
  eexists. split; [eassumption|done].
Qed.

Lemma reload_admin_table_journal st :
  ∃ l, requests (reload_admin_table st).2 = requests st ++ l
       ∧ product_writes l = [].
Proof.
  unfold reload_admin_table.
  destruct (admin_products_body st); [|exists []; by rewrite app_nil_r].
  round_trip E.
  match goal with |- ∃ l, requests ?x = _ ∧ _ =>
    assert (requests x = requests a) as -> by (by destruct r) end.
  eexists. split; [eassumption|done].
Qed.

Lemma saveAdminProduct_writes pd st :
  product_writes (issued st (saveAdminProduct pd st).2)
  = [if truthy (pd_id pd) then UpdateProduct (js_string (pd_id pd)) pd
     else InsertProduct pd].
Proof.
  unfold saveAdminProduct.
  assert (∀ w st1 reply, send w st = (st1, reply) → is_product_write (w, true) →
    product_writes
      (issued st
         (match reply with
          | RepError message =>
              (Returned, showToast ("Error saving product: " +:+ message) error st1)
          | _ =>
              loadAdminProducts
                (loadProducts no_filters
                   (showToast
                      (if truthy (pd_id pd) then "Product updated successfully!"
                       else "Product created successfully!") success st1)).2
          end).2) = [w]) as Hw.
  { intros w st1 reply E Hwrite.
    apply send_spec in E as (_ & _ & _ & _ & _ & _ & _ & _ & Hj & _).
    set (st2 := showToast _ success st1).
    destruct (loadProducts_journal no_filters st2) as (l1 & H1 & Hn1).
    destruct (loadAdminProducts_journal (loadProducts no_filters st2).2)
      as (l2 & H2 & Hn2).
    assert (product_writes
              (issued st (loadAdminProducts (loadProducts no_filters st2).2).2)
            = [w]) as Hgood.
    { rewrite (issued_app _ _ (([(w, match reply with RepError _ => false | _ => true end)]
                                  ++ l1) ++ l2)).
      - rewrite !product_writes_app, Hn1, Hn2, !app_nil_r.
        unfold product_writes. rewrite filter_cons, decide_True; [done|].
        by destruct w.
      - rewrite H2, H1. subst st2. simpl. rewrite Hj. by rewrite <- !app_assoc. }
    destruct reply; try exact Hgood.
    simpl. rewrite (issued_app _ _ [(w, false)]) by done.
    unfold product_writes. rewrite filter_cons, decide_True; [done|]. by destruct w. }
  destruct (truthy (pd_id pd)).
  - destruct (send _ st) as [st1 reply] eqn:E. by apply Hw.
  - destruct (send _ st) as [st1 reply] eqn:E. by apply Hw.
Qed.

Lemma saveProduct_writes f st :
  product_writes (issued st (saveProduct f st).2)
  = [if truthy (form_product_id f)
     then UpdateProduct (js_string (form_product_id f)) (form_product_data f)
     else InsertProduct (form_product_data f)].
Proof.
  unfold saveProduct.
  assert (∀ w st1 reply, send w st = (st1, reply) → is_product_write (w, true) →
    product_writes
      (issued st
         (match reply with
          | RepError message =>
              (Returned, showToast ("Error: " +:+ message) error st1)
          | _ =>
              reload_admin_table
                (showToast
                   (if truthy (form_product_id f)
                    then "Product updated successfully"
                    else "Product added successfully") success st1)
          end).2) = [w]) as Hw.
  { intros w st1 reply E Hwrite.
    apply send_spec in E as (_ & _ & _ & _ & _ & _ & _ & _ & Hj & _).
    set (st2 := showToast _ success st1).
    destruct (reload_admin_table_journal st2) as (l1 & H1 & Hn1).
    assert (product_writes (issued st (reload_admin_table st2).2) = [w]) as Hgood.
    { rewrite (issued_app _ _ ([(w, match reply with RepError _ => false | _ => true end)]
                                 ++ l1)).
      - rewrite !product_writes_app, Hn1, !app_nil_r.
        unfold product_writes. rewrite filter_cons, decide_True; [done|].
        by destruct w.
      - rewrite H1. subst st2. simpl. rewrite Hj. by rewrite <- !app_assoc. }
    destruct reply; try exact Hgood.
    simpl. rewrite (issued_app _ _ [(w, false)]) by done.
    unfold product_writes. rewrite filter_cons, decide_True; [done|]. by destruct w. }
  destruct (truthy (form_product_id f)).
  - destruct (send _ st) as [st1 reply] eqn:E. by apply Hw.
  - destruct (send _ st) as [st1 reply] eqn:E. by apply Hw.
Qed.

(** The branch taken on [if (id)] against the identifier read off [v]. *)
Lemma routes_by_identifier (v : option string) (pd : ProductData) :
  let w := if truthy v then UpdateProduct (js_string v) pd else InsertProduct pd in
  (∀ id, identifier v id ↔ w = UpdateProduct id pd)
  ∧ ((∀ id, ¬ identifier v id) ↔ w = InsertProduct pd).
Proof.
  unfold identifier. destruct v as [s|]; simpl.
  - case_decide as Hs.
    + subst s. split.
      * intros id. split; [intros [[= <-] ?]; done|done].
      * split; [done|]. intros _ id [[= <-] ?]. done.
    + split.
      * intros id. split; [by intros [[= <-] _]|]. by intros [= <-].
      * split; [|done]. intros Hnone. by destruct (Hnone s).
  - split.
    + intros id. split; [by intros [? _]|done].
    + split; [done|]. by intros _ id [? _].
Qed.

(** C9. Saving a product writes to [products] exactly once.  The write is
    an update of the row with the identifier if and only if the payload
    carries that identifier, and an insert if and only if it carries none.
    This holds for [saveAdminProduct], where the identifier is the [id] of
    the payload, and for [saveProduct], where it is read from the form. *)
Theorem save_product_routes :
  (∀ pd st,
     ∃ w, product_writes (issued st (saveAdminProduct pd st).2) = [w]
          ∧ (∀ id, identifier (pd_id pd) id ↔ w = UpdateProduct id pd)
          ∧ ((∀ id, ¬ identifier (pd_id pd) id) ↔ w = InsertProduct pd))
  ∧ (∀ f st,
     ∃ w, product_writes (issued st (saveProduct f st).2) = [w]
          ∧ (∀ id, identifier (form_product_id f) id
                   ↔ w = UpdateProduct id (form_product_data f))
          ∧ ((∀ id, ¬ identifier (form_product_id f) id)
             ↔ w = InsertProduct (form_product_data f))).
Proof.
  split.
  - intros pd st. eexists. split; [apply saveAdminProduct_writes|].
    apply routes_by_identifier.
  - intros f st. eexists. split; [apply saveProduct_writes|].
    apply routes_by_identifier.
Qed.

(** ** The cart of a logged-in user mirrors the backend *)

Section KeyedLists.
Context {A B : Type} `{!EqDecision B} (f : A → B).

Lemma filter_all (P : A → Prop) `{!∀ x, Decision (P x)} (l : list A) :
  Forall P l → filter P l = l.
Proof.
  induction 1 as [|x l Hx _ IH]; [done|].
  by rewrite filter_cons, decide_True, IH.
Qed.

Lemma Permutation_unique_key (l : list A) (x : A) :
  NoDup (f <$> l) → x ∈ l → l ≡ₚ x :: filter (λ y, f y ≠ f x) l.
Proof.
  induction l as [|a l IH]; [by intros _ ?%elem_of_nil|].
  rewrite fmap_cons, NoDup_cons. intros [Ha Hl] Hx.
  apply elem_of_cons in Hx as [->|Hx].
  - rewrite filter_cons, decide_False by naive_solver.
    rewrite filter_all; [done|].
    apply Forall_forall. intros y Hy Hfy. apply Ha. rewrite <- Hfy.
    apply list_elem_of_fmap. eauto.
  - assert (f a ≠ f x) as Hne.
    { intros Hfa. apply Ha. rewrite Hfa. apply list_elem_of_fmap. eauto. }
    rewrite filter_cons, decide_True by done.
    rewrite (IH Hl Hx) at 1. apply perm_swap.
Qed.

Lemma alter_Permutation (g : A → A) (l : list A) i x :
  l !! i = Some x → alter g i l ≡ₚ g x :: delete i l.
Proof.
  revert i. induction l as [|a l IH]; intros [|i] Hi; simplify_eq/=; [done|].
  rewrite (IH i Hi). apply perm_swap.
Qed.
End KeyedLists.

Lemma fresh_id_inj n m : fresh_id n = fresh_id m → n = m.
Proof. unfold fresh_id. intros H. by apply (inj _), (inj pretty) in H. Qed.

Lemma fresh_id_nonempty n : fresh_id n ≠ "".
Proof. done. Qed.

(** What the three mutations do to the cart and to the backend of a
    logged-in user. *)
Lemma addToCart_effect product size quantity st user :
  currentUser st = Some user →
  let st' := (addToCart product size quantity st).2 in
  (cart st' = cart st ∧ backend st' = backend st)
  ∨ (∃ i existing,
       cart st !! i = Some existing
       ∧ cart st' = alter (add_quantity quantity) i (cart st)
       ∧ backend st'
         = (backend_exec
              (UpdateCartQuantity (js_string (l_id existing))
                 (l_quantity existing + quantity)) (backend st)).1)
  ∨ (∃ row joined,
       backend_exec (InsertCartItem (u_id user) (p_id product) quantity size)
         (backend st) = (backend st', RepCartRow row joined)
       ∧ cart st' = cart st ++ [line_of_row (row, joined)]).
Proof.
  intros Hu. simpl. unfold addToCart. rewrite Hu.
  destruct (list_find _ (cart st)) as [[i existing]|] eqn:Hfind.
  - apply list_find_Some in Hfind as (Hi & _ & _).
    round_trip E.
    match goal with H : (backend _, _) = _ |- _ => rename H into Hbe end.
    destruct (fails (length (requests st))).
    + injection Hbe as Hb ->. simpl. left. by split.
    + simpl in Hbe. injection Hbe as Hbe ->. simpl. right. left.
      exists i, existing. split; [done|]. split; [congruence|done].
  - round_trip E.
    match goal with H : (backend _, _) = _ |- _ => rename H into Hbe end.
    destruct (fails (length (requests st))).
    + injection Hbe as Hb ->. simpl. left. by split.
    + destruct (backend_exec _ (backend st)) as [be reply] eqn:Hexec.
      injection Hbe as Hb ->.
      simpl in Hexec.
      destruct (list_find _ (be_products (backend st))) as [[j joined]|].
      * injection Hexec as <- <-. simpl. right. right.
        eexists _, joined. rewrite Hb. split; [reflexivity|]. by f_equal.
      * injection Hexec as <- <-. simpl. left. by split.
Qed.

Lemma removeFromCart_effect index st user :
  currentUser st = Some user →
  let st' := (removeFromCart index st).2 in
  (cart st' = cart st ∧ backend st' = backend st)
  ∨ (∃ line,
       cart st !! index = Some line
       ∧ cart st' = delete index (cart st)
       ∧ backend st'
         = (if truthy (l_id line)
            then (backend_exec (DeleteCartItem (js_string (l_id line))) (backend st)).1
            else backend st)).
Proof.
  intros Hu. simpl. unfold removeFromCart. rewrite Hu.
  pose proof (splice_line_fields index st) as (_ & _ & Hb & Hc).
  destruct (cart st !! index) as [line|] eqn:Hi; [|left; by split].
  destruct (truthy (l_id line)) eqn:Hid.
  - round_trip E.
    match goal with H : (backend _, _) = _ |- _ => rename H into Hbe end.
    pose proof (splice_line_fields index a) as (_ & _ & Hb' & Hc').
    destruct (fails (length (requests st))).
    + injection Hbe as Hbe ->. simpl. left. by split.
    + simpl in Hbe. injection Hbe as Hbe ->. simpl. right.
      exists line. rewrite Hid. split; [done|]. split; congruence.
  - simpl. right. exists line. by rewrite Hid.
Qed.

Lemma updateCartQuantity_effect index quantity st user :
  currentUser st = Some user → (1 ≤ quantity)%Z →
  let st' := (updateCartQuantity index quantity st).2 in
  (cart st' = cart st ∧ backend st' = backend st)
  ∨ (∃ line,
       cart st !! index = Some line
       ∧ cart st' = alter (with_quantity quantity) index (cart st)
       ∧ backend st'
         = (if truthy (l_id line)
            then (backend_exec (UpdateCartQuantity (js_string (l_id line)) quantity)
                    (backend st)).1
            else backend st)).
Proof.
  intros Hu Hq. simpl. unfold updateCartQuantity.
  rewrite decide_False by lia. rewrite Hu.
  destruct (cart st !! index) as [line|] eqn:Hi; [|left; by split].
  assert (∀ st0, cart st0 = cart st → currentUser st0 = Some user →
            cart (assign_quantity index quantity st0).2
            = alter (with_quantity quantity) index (cart st)
            ∧ backend (assign_quantity index quantity st0).2 = backend st0) as Hassign.
  { intros st0 Hc0 Hu0. unfold assign_quantity. rewrite Hc0, Hi. simpl.
    rewrite Hu0. by simpl. }
  destruct (truthy (l_id line)) eqn:Hid.
  - round_trip E.
    match goal with H : (backend _, _) = _ |- _ => rename H into Hbe end.
    destruct (fails (length (requests st))).
    + injection Hbe as Hbe ->. simpl. left. by split.
    + simpl in Hbe. injection Hbe as Hbe ->.
      destruct (Hassign a) as [Hc' Hb']; [congruence..|].
      right. exists line. rewrite Hid. split; [done|]. split; congruence.
  - destruct (Hassign st) as [Hc' Hb']; [done..|].
    right. exists line. rewrite Hid. by split.
Qed.

Lemma filter_fmap_invariant {A} (P : A → Prop) `{!∀ x, Decision (P x)}
    (g : A → A) (l : list A) :
  (∀ x, P (g x) ↔ P x) → filter P (g <$> l) = g <$> filter P l.
Proof.
  intros Hg. induction l as [|x l IH]; [done|].
  rewrite fmap_cons, !filter_cons.
  destruct (decide (P x)) as [Hx|Hx].
  - rewrite decide_True by (by apply Hg). by rewrite fmap_cons, IH.
  - rewrite decide_False by (by rewrite Hg). done.
Qed.

Lemma filter_swap {A} (P Q : A → Prop)
    `{!∀ x, Decision (P x), !∀ x, Decision (Q x)} (l : list A) :
  filter P (filter Q l) = filter Q (filter P l).
Proof. rewrite !list_filter_filter. apply list_filter_iff. tauto. Qed.

(** A row of the user, and the user's other rows. *)
Lemma rows_of_user_split user tbl row :
  NoDup (r_id <$> tbl) →
  row ∈ filter (λ r, r_user_id r = user) tbl →
  filter (λ r, r_user_id r = user) tbl
  ≡ₚ row :: filter (λ r, r_user_id r = user) (filter (λ r, r_id r ≠ r_id row) tbl).
Proof.
  intros Hnd Hrow.
  rewrite (filter_swap (λ r, r_user_id r = user)).
  apply Permutation_unique_key; [|done].
  apply (sublist_NoDup _ (r_id <$> tbl)); [done|].
  apply fmap_sublist, sublist_filter.
Qed.

Lemma in_sync_row user st i line :
  in_sync user st → cart st !! i = Some line →
  ∃ row, row ∈ rows_of_user (u_id user) (backend st)
         ∧ row_key row = line_key line
         ∧ truthy (l_id line) = true
         ∧ js_string (l_id line) = r_id row.
Proof.
  intros [Hkeys [_ Hids]] Hi.
  assert (line_key line ∈ row_key <$> rows_of_user (u_id user) (backend st)) as Hin.
  { rewrite <- Hkeys. apply list_elem_of_fmap. exists line. split; [done|].
    by eapply list_elem_of_lookup_2. }
  apply list_elem_of_fmap in Hin as (row & Hkey & Hrow).
  exists row. split; [done|]. split; [done|].
  assert (l_id line = Some (r_id row)) as ->.
  { unfold line_key, row_key in Hkey. congruence. }
  assert (r_id row ≠ "") as Hne.
  { unfold rows_of_user in Hrow. apply list_elem_of_filter in Hrow as [_ Hrow].
    rewrite Forall_forall in Hids. by destruct (Hids row Hrow). }
  simpl. by rewrite decide_False.
Qed.

(** The keys of the other lines are the keys of the other rows. *)
Lemma in_sync_rest user st i line row :
  in_sync user st → cart st !! i = Some line →
  row ∈ rows_of_user (u_id user) (backend st) → row_key row = line_key line →
  line_key <$> delete i (cart st)
  ≡ₚ row_key <$> filter (λ r, r_user_id r = u_id user)
                   (filter (λ r, r_id r ≠ r_id row) (be_cart_items (backend st))).
Proof.
  intros [Hkeys [Hnd _]] Hi Hrow Hkey.
  apply (inj (cons (line_key line))).
  rewrite <- fmap_cons, <- (delete_Permutation _ _ _ Hi), Hkeys.
  unfold rows_of_user in *. rewrite (rows_of_user_split _ _ row Hnd Hrow) at 1.
  by rewrite fmap_cons, Hkey.
Qed.

Lemma in_sync_after_delete user st st' i line :
  in_sync user st → cart st !! i = Some line →
  cart st' = delete i (cart st) →
  backend st'
  = (if truthy (l_id line)
     then (backend_exec (DeleteCartItem (js_string (l_id line))) (backend st)).1
     else backend st) →
  in_sync user st'.
Proof.
  intros Hsync Hi Hc Hb.
  destruct (in_sync_row user st i line Hsync Hi) as (row & Hrow & Hkey & Hid & Hjs).
  rewrite Hid, Hjs in Hb. simpl in Hb.
  pose proof (in_sync_rest user st i line row Hsync Hi Hrow Hkey) as Hrest.
  destruct Hsync as [_ [Hnd Hids]].
  split; [|split].
  - rewrite Hc, Hb. unfold rows_of_user. simpl. exact Hrest.
  - rewrite Hb. simpl.
    apply (sublist_NoDup _ (r_id <$> be_cart_items (backend st))); [done|].
    apply fmap_sublist, sublist_filter.
  - rewrite Hb. simpl. rewrite Forall_forall in *.
    intros r [_ Hr]%list_elem_of_filter. by apply Hids.
Qed.

Lemma in_sync_after_update user st st' i line f quantity :
  in_sync user st → cart st !! i = Some line →
  line_key (f line) = (l_id line, p_id (l_product line), quantity, l_size line) →
  cart st' = alter f i (cart st) →
  backend st'
  = (if truthy (l_id line)
     then (backend_exec (UpdateCartQuantity (js_string (l_id line)) quantity)
             (backend st)).1
     else backend st) →
  in_sync user st'.
Proof.
  intros Hsync Hi Hf Hc Hb.
  destruct (in_sync_row user st i line Hsync Hi) as (row & Hrow & Hkey & Hid & Hjs).
  rewrite Hid, Hjs in Hb. simpl in Hb.
  pose proof (in_sync_rest user st i line row Hsync Hi Hrow Hkey) as Hrest.
  destruct Hsync as [_ [Hnd Hids]].
  assert (r_id <$> (set_row_quantity (r_id row) quantity <$> be_cart_items (backend st))
          = r_id <$> be_cart_items (backend st)) as Hsame.
  { rewrite <- list_fmap_compose. apply list_fmap_ext. intros j r _. simpl.
    unfold set_row_quantity. by case_decide. }
  split; [|split].
  - rewrite Hc, Hb. unfold rows_of_user in *. simpl.
    rewrite (alter_Permutation f _ _ _ Hi), fmap_cons, Hrest.
    rewrite filter_fmap_invariant
      by (intros r; unfold set_row_quantity; by case_decide).
    rewrite (rows_of_user_split _ _ row Hnd Hrow).
    rewrite !fmap_cons. f_equiv.
    + rewrite Hf. unfold set_row_quantity. rewrite decide_True by done.
      unfold line_key, row_key in *. simpl. congruence.
    + set (rest := filter _ (filter _ _)).
      assert (set_row_quantity (r_id row) quantity <$> rest = rest) as ->; [|done].
      rewrite <- (list_fmap_id rest) at 2.
      apply Forall_fmap_ext_1, Forall_forall.
      intros r [_ [Hr _]%list_elem_of_filter]%list_elem_of_filter.
      unfold set_row_quantity. by rewrite decide_False.
  - rewrite Hb. simpl. by rewrite Hsame.
  - rewrite Hb. simpl. rewrite Forall_fmap. rewrite Forall_forall in *.
    intros r Hr. unfold compose, set_row_quantity. case_decide; simpl; by apply Hids.
Qed.

Lemma in_sync_after_insert user st st' product quantity size row joined :
  in_sync user st →
  backend_exec (InsertCartItem (u_id user) product quantity size) (backend st)
  = (backend st', RepCartRow row joined) →
  cart st' = cart st ++ [line_of_row (row, joined)] →
  in_sync user st'.
Proof.
  intros [Hkeys [Hnd Hids]] Hexec Hc. simpl in Hexec.
  destruct (list_find _ (be_products (backend st))) as [[j found]|] eqn:Hfind;
    [|done].
  apply list_find_Some in Hfind as (_ & Hp & _).
  injection Hexec as Hb <- <-. unfold in_sync, cart_keys_ok. rewrite <- Hb, Hc.
  split; [|split]; simpl.
  - unfold rows_of_user in *. simpl.
    rewrite filter_app, !fmap_app, Hkeys, filter_cons, decide_True by done.
    f_equiv. simpl. unfold line_key, row_key. simpl. by rewrite Hp.
  - rewrite fmap_app. apply NoDup_app. split; [done|]. split.
    + intros id Hid Hnew. apply list_elem_of_fmap in Hid as (r & -> & Hr).
      apply list_elem_of_singleton in Hnew. simpl in Hnew.
      rewrite Forall_forall in Hids. destruct (Hids r Hr) as [_ Hfresh].
      by apply (Hfresh (be_next (backend st))).
    + apply NoDup_singleton.
  - apply Forall_app. split.
    + rewrite Forall_forall in *. intros r Hr.
      destruct (Hids r Hr) as [Hne Hfresh]. split; [done|].
      intros n Hn. apply Hfresh. lia.
    + apply Forall_singleton. simpl. split; [done|].
      intros n Hn Heq. apply fresh_id_inj in Heq. lia.
Qed.

(** X1.  For a logged-in user, a cart that mirrors the user's rows (the
    same id, product, quantity and size, line for row, up to order; the
    row ids distinct, not empty, and none of them an id the backend has
    yet to hand out) still does so after a call of one of the three cart
    mutations that no other handler overlaps, whether its request
    succeeds or fails: for [addToCart], the click and then the reply,
    with nothing in between.  Calls that overlap can leave the cart and
    the rows apart. *)
Theorem cart_stays_in_sync (op : CartOp) (st : App) (user : User) :
  currentUser st = Some user → in_sync user st →
  in_sync user (run_op op st).2
  ∧ ∀ product size quantity,
      op = Add product size quantity →
      run_events [Click product size quantity; Settle 0] st = ((run_op op st).2, []).
Proof.
  intros Hu Hsync. split; [|by intros product size quantity ->;
                             apply (run_one_by_one product size [quantity])].
  assert (∀ st', cart st' = cart st → backend st' = backend st → in_sync user st')
    as Hsame.
  { intros st' Hc Hb. unfold in_sync. by rewrite Hc, Hb. }
  assert (∀ index, in_sync user (removeFromCart index st).2) as Hremove.
  { intros index.
    destruct (removeFromCart_effect index st user Hu)
      as [[Hc Hb]|(line & Hi & Hc & Hb)]; [by apply Hsame|].
    by eapply in_sync_after_delete. }
  destruct op as [product size quantity|index|index quantity]; simpl.
  - destruct (addToCart_effect product size quantity st user Hu)
      as [[Hc Hb]|[(i & existing & Hi & Hc & Hb)|(row & joined & Hexec & Hc)]].
    + by apply Hsame.
    + destruct (in_sync_row user st i existing Hsync Hi) as (_ & _ & _ & Hid & _).
      eapply (in_sync_after_update user st _ i existing); [done..| |done|].
      * reflexivity.
      * by rewrite Hid.
    + by eapply in_sync_after_insert.
  - apply Hremove.
  - destruct (decide (quantity < 1)%Z) as [Hq|Hq].
    + unfold updateCartQuantity. rewrite decide_True by done. apply Hremove.
    + destruct (updateCartQuantity_effect index quantity st user Hu)
        as [[Hc Hb]|(line & Hi & Hc & Hb)]; [lia|by apply Hsame|].
      eapply (in_sync_after_update user st _ index line); [done..| |done|done].
      reflexivity.
Qed.

(** ** Reading the cart back *)

Lemma select_cart_items_keys user be joined :
  select_cart_items user be = Some joined →
  line_key <$> (line_of_row <$> joined) = row_key <$> rows_of_user user be.
Proof.
  unfold select_cart_items. intros H%mapM_Some.
  induction H as [|row item rows joined Hjoin _ IH]; [done|].
  rewrite !fmap_cons, IH. f_equal.
  unfold join_product in Hjoin.
  destruct (list_find _ (be_products be)) as [[j p]|] eqn:Hfind; [|done].
  apply list_find_Some in Hfind as (_ & Hp & _).
  injection Hjoin as <-. unfold line_key, row_key. simpl. by rewrite Hp.
Qed.

Lemma loaded_cart_in_sync user st st' joined data :
  cart_keys_ok (backend st) →
  select_cart_items (u_id user) (backend st) = Some joined →
  data ≡ₚ joined →
  cart st' = line_of_row <$> data → backend st' = backend st →
  in_sync user st'.
Proof.
  intros Hok Hsel Hdata Hc Hb. unfold in_sync. rewrite Hc, Hb. split; [|done].
  by rewrite Hdata, (select_cart_items_keys _ _ _ Hsel).
Qed.

(** X2.  A page reload of a logged-in user whose cart mirrors the backend:
    [checkAuth] finds the session and [loadCart] reads the rows in any
    order.  The cart comes back with the same lines, up to order, and
    still mirrors the backend.  If the read fails the cart stays empty. *)
Theorem reload_restores_cart (st : App) (user : User)
    (joined data : list (CartRow * Product)) (message : string) :
  in_sync user st →
  select_cart_items (u_id user) (backend st) = Some joined →
  data ≡ₚ joined →
  let st' := (checkAuth (Some user) (CartRows data) (page_start st)).2 in
  currentUser st' = Some user
  ∧ line_key <$> cart st' ≡ₚ line_key <$> cart st
  ∧ in_sync user st'
  ∧ cart (checkAuth (Some user) (CartError message) (page_start st)).2 = [].
Proof.
  intros [Hkeys Hok] Hsel Hdata. simpl.
  split; [done|]. split; [|split; [|done]].
  - by rewrite Hdata, (select_cart_items_keys _ _ _ Hsel), Hkeys.
  - by eapply loaded_cart_in_sync.
Qed.

(** X3.  Logging out empties the cart and leaves the backend alone; logging
    in again brings the same lines back, up to order. *)
Theorem logout_login_restores_cart (st : App) (user : User)
    (joined data : list (CartRow * Product)) :
  in_sync user st →
  select_cart_items (u_id user) (backend st) = Some joined →
  data ≡ₚ joined →
  let st1 := (handleLogout None st).2 in
  let st2 := (handleLogin (inr user) (CartRows data) st1).2 in
  currentUser st1 = None ∧ cart st1 = [] ∧ backend st1 = backend st
  ∧ currentUser st2 = Some user
  ∧ line_key <$> cart st2 ≡ₚ line_key <$> cart st
  ∧ in_sync user st2.
Proof.
  intros [Hkeys Hok] Hsel Hdata. simpl.
  repeat (split; [done|]). split.
  - by rewrite Hdata, (select_cart_items_keys _ _ _ Hsel), Hkeys.
  - by eapply loaded_cart_in_sync.
Qed.

Lemma processCheckout_delete_failed st user :
  currentUser st = Some user → cart st ≠ [] →
  fails (length (requests st)) = false →
  fails (S (length (requests st))) = true →
  let st' := (processCheckout st).2 in
  cart st' = [] ∧ currentUser st' = Some user
  ∧ be_cart_items (backend st') = be_cart_items (backend st)
  ∧ be_products (backend st') = be_products (backend st)
  ∧ be_next (backend st') = N.succ (be_next (backend st)).
Proof.
  intros Hu Hc Hok Hko. simpl. unfold processCheckout.
  destruct (cart st) as [|item c] eqn:Hcart; [done|]. rewrite Hu.
  round_trip E.
  match goal with H : (backend _, _) = _ |- _ => rename H into Hbe end.
  match goal with H : requests a = _ |- _ => rename H into Hj end.
  rewrite Hok in Hbe. simpl in Hbe. injection Hbe as Hbe ->.
  destruct (send (DeleteCartOfUser (u_id user)) a) as [st2 reply2] eqn:E2.
  apply send_spec in E2 as (Hu2 & _ & _ & _ & _ & _ & _ & _ & _ & Hbe2).
  rewrite Hj, length_app, Nat.add_1_r, Hko in Hbe2. injection Hbe2 as Hbe2 _.
  simpl. rewrite Hbe2, Hbe. simpl. repeat split. congruence.
Qed.

(** X4.  A checkout whose insert succeeds and whose delete fails empties the
    in-memory cart only: at the next load the lines of the order that was
    just placed are back in the cart. *)
Theorem checkout_failed_delete_leaves_stale_cart (st : App) (user : User)
    (joined data : list (CartRow * Product)) :
  currentUser st = Some user → cart st ≠ [] → in_sync user st →
  fails (length (requests st)) = false →
  fails (S (length (requests st))) = true →
  select_cart_items (u_id user) (backend st) = Some joined →
  data ≡ₚ joined →
  let st1 := (processCheckout st).2 in
  let st2 := (loadCart (CartRows data) st1).2 in
  cart st1 = []
  ∧ select_cart_items (u_id user) (backend st1) = Some joined
  ∧ line_key <$> cart st2 ≡ₚ line_key <$> cart st.
Proof.
  intros Hu Hc [Hkeys Hok] Hins Hdel Hsel Hdata.
  destruct (processCheckout_delete_failed st user Hu Hc Hins Hdel)
    as (Hc1 & Hu1 & Hrows & Hproducts & _).
  simpl. split; [done|]. split.
  - unfold select_cart_items, rows_of_user, join_product in *.
    by rewrite Hrows, Hproducts.
  - unfold loadCart. rewrite Hu1. simpl.
    by rewrite Hdata, (select_cart_items_keys _ _ _ Hsel), Hkeys.
Qed.

(** ** Quantities, the item count and the guest's stored cart *)

Lemma modal_quantity_positive clicks : (1 ≤ modal_quantity clicks)%Z.
Proof.
  unfold modal_quantity.
  assert (∀ start, (1 ≤ start)%Z →
            (1 ≤ foldl (λ qty change, updateModalQuantity change qty) start clicks)%Z)
    as H; [|by apply H].
  induction clicks as [|change clicks IH]; intros start Hs; [done|].
  simpl. apply IH. unfold updateModalQuantity. lia.
Qed.

(** X5.  No cart line ever has a quantity below 1: the product modal never
    shows less than 1, and a cart whose lines all have at least 1 keeps
    that through every mutation that adds at least 1, for every quantity
    passed to [updateCartQuantity], whatever the backend answers. *)
Theorem cart_quantities_stay_positive (op : CartOp) (st : App) :
  (∀ clicks product size,
     adds_at_least_one (Add product size (modal_quantity clicks)))
  ∧ (positive_cart (cart st) → adds_at_least_one op →
     positive_cart (cart (run_op op st).2)).
Proof.
  split; [intros; apply modal_quantity_positive|].
  unfold positive_cart. intros Hpos Hop.
  assert (∀ index, Forall (λ item, (1 ≤ l_quantity item)%Z)
                     (cart (removeFromCart index st).2)) as Hremove.
  { intros index. destruct (removeFromCart_cart index st) as [-> | ->]; [done|].
    by apply Forall_delete. }
  destruct op as [product size quantity|index|index quantity]; simpl in *.
  - destruct (addToCart_cart product size quantity st) as [_ [[_ ->]|Hcart]]; [done|].
    destruct (list_find _ (cart st)) as [[i existing]|].
    + rewrite Hcart. apply Forall_alter; [done|].
      intros item _ Hitem. simpl. lia.
    + destruct Hcart as (line & _ & Hq & ->).
      apply Forall_app. split; [done|]. apply Forall_singleton. lia.
  - apply Hremove.
  - destruct (decide (quantity < 1)%Z) as [Hq|Hq].
    + unfold updateCartQuantity. rewrite decide_True by done. apply Hremove.
    + destruct (updateCartQuantity_cart index quantity st) as [-> | [-> | ->]];
        [done|by apply Forall_delete|].
      apply Forall_alter; [done|]. intros item _ _. simpl. lia.
Qed.

(** X6.  A guest's cart is written to local storage by every mutation that
    returns, and [loadCart] reads back exactly that cart; no request is
    sent and the backend is not touched. *)
Theorem guest_cart_is_stored (op : CartOp) (st : App) (reply : CartReply) :
  currentUser st = None → (run_op op st).1 = Returned →
  let st' := (run_op op st).2 in
  stored_cart st' = Some (cart st')
  ∧ cart (loadCart reply st').2 = cart st'
  ∧ requests st' = requests st ∧ backend st' = backend st.
Proof.
  intros Hu Hret.
  assert (∀ st', currentUser st' = None → stored_cart st' = Some (cart st') →
            cart (loadCart reply st').2 = cart st') as Hload.
  { intros st' Hu' Hs'. unfold loadCart. by rewrite Hu', Hs'. }
  assert (∀ index, let st' := (removeFromCart index st).2 in
            currentUser st' = None ∧ stored_cart st' = Some (cart st')
            ∧ requests st' = requests st ∧ backend st' = backend st) as Hremove.
  { intros index. simpl. unfold removeFromCart, splice_line. rewrite Hu. simpl.
    by rewrite Hu. }
  simpl.
  destruct op as [product size quantity|index|index quantity]; simpl in *.
  - unfold addToCart in *. rewrite Hu. simpl. split; [done|].
    split; [|done]. by apply Hload.
  - destruct (Hremove index) as (? & ? & ? & ?). split; [done|].
    split; [|done]. by apply Hload.
  - unfold updateCartQuantity in *. case_decide.
    + destruct (Hremove index) as (? & ? & ? & ?). split; [done|].
      split; [|done]. by apply Hload.
    + rewrite Hu in *. unfold assign_quantity in *.
      destruct (cart st !! index) as [line|]; [|done].
      simpl. rewrite Hu. simpl. split; [done|].
      split; [|done]. apply Hload; simpl; by rewrite ?Hu.
Qed.

(** X7.  After a page load without a session the cart is empty whatever local
    storage holds: [loadCart] is only called for a session.  The first
    add then overwrites the stored cart with its single line. *)
Theorem guest_cart_not_read_at_page_load (st : App) (reply : CartReply)
    (product : Product) (size : string) (quantity : Z) :
  let st1 := (checkAuth None reply (page_start st)).2 in
  let st2 := (addToCart product size quantity st1).2 in
  cart st1 = [] ∧ stored_cart st1 = stored_cart st
  ∧ cart st2 = [mkLine None product quantity size]
  ∧ stored_cart st2 = Some [mkLine None product quantity size].
Proof. done. Qed.

Lemma cart_count_foldl (c : list CartLine) (acc : Z) :
  foldl (λ sum item, (sum + l_quantity item)%Z) acc c = (acc + cart_count c)%Z.
Proof.
  unfold cart_count. revert acc.
  induction c as [|item c IH] using rev_ind; intros acc; simpl; [lia|].
  rewrite !foldl_app. simpl. rewrite IH. lia.
Qed.

Lemma cart_count_cons item c :
  cart_count (item :: c) = (l_quantity item + cart_count c)%Z.
Proof. unfold cart_count at 1. simpl. rewrite cart_count_foldl. lia. Qed.

Lemma cart_count_app c1 c2 :
  cart_count (c1 ++ c2) = (cart_count c1 + cart_count c2)%Z.
Proof.
  induction c1 as [|item c1 IH]; [done|].
  rewrite <- app_comm_cons, !cart_count_cons, IH. lia.
Qed.

Lemma cart_count_delete c index :
  cart_count (delete index c)
  = (cart_count c - default 0 (l_quantity <$> c !! index))%Z.
Proof.
  revert index. induction c as [|item c IH]; intros [|index]; simpl;
    rewrite ?cart_count_cons; try lia.
  rewrite IH. lia.
Qed.

Lemma cart_count_alter f c index :
  cart_count (alter f index c)
  = (cart_count c - default 0 (l_quantity <$> c !! index)
     + default 0 (l_quantity ∘ f <$> c !! index))%Z.
Proof.
  revert index. induction c as [|item c IH]; intros [|index]; simpl;
    rewrite ?cart_count_cons; try lia.
  change (list_alter f index c) with (alter f index c). rewrite IH. lia.
Qed.

Lemma all_succeeded_same st st' :
  requests st' = requests st → all_succeeded st st'.
Proof.
  intros H. unfold all_succeeded.
  rewrite (issued_app st st' []) by (by rewrite app_nil_r). constructor.
Qed.

Lemma all_succeeded_one st st' r ok :
  requests st' = requests st ++ [(r, ok)] → all_succeeded st st' ↔ ok = true.
Proof.
  intros H. unfold all_succeeded. rewrite (issued_app _ _ _ H).
  rewrite Forall_singleton. done.
Qed.

(** How a mutation ends: it throws and changes nothing, or its request
    fails and the cart is as before, or it goes through. *)
Lemma addToCart_outcome product size quantity st :
  let res := addToCart product size quantity st in
  res.1 = Returned
  ∧ ((¬ all_succeeded st res.2 ∧ cart res.2 = cart st)
     ∨ (all_succeeded st res.2
        ∧ cart_count (cart res.2) = (cart_count (cart st) + quantity)%Z)).
Proof.
  simpl. unfold addToCart.
  assert (∀ i existing, list_find (same_line (p_id product) size) (cart st)
                        = Some (i, existing) →
            cart_count (alter (add_quantity quantity) i (cart st))
            = (cart_count (cart st) + quantity)%Z) as Halter.
  { intros i existing (Hi & _ & _)%list_find_Some.
    rewrite cart_count_alter, Hi. simpl. lia. }
  assert (∀ line, l_quantity line = quantity →
            cart_count (cart st ++ [line]) = (cart_count (cart st) + quantity)%Z)
    as Hpush.
  { intros line <-. rewrite cart_count_app, cart_count_cons. unfold cart_count. simpl.
    lia. }
  destruct (currentUser st) as [user|].
  - destruct (list_find _ (cart st)) as [[i existing]|] eqn:Hfind.
    + round_trip E.
      match goal with H : requests a = _ |- _ => rename H into Hj end.
      destruct r; simpl; (split; [done|]);
        try (right; split; [by eapply all_succeeded_one|];
             replace (cart a) with (cart st); by eapply Halter).
      left. split; [|done]. by rewrite (all_succeeded_one _ _ _ _ Hj).
    + round_trip E.
      match goal with H : requests a = _ |- _ => rename H into Hj end.
      match goal with H : (backend _, _) = _ |- _ => rename H into Hbe end.
      destruct (fails (length (requests st))).
      { injection Hbe as _ ->. simpl. split; [done|]. left.
        split; [|done]. by rewrite (all_succeeded_one _ _ _ _ Hj). }
      simpl in Hbe.
      destruct (list_find _ (be_products (backend st))) as [[j joined]|].
      * injection Hbe as _ ->. simpl. split; [done|]. right.
        split; [by eapply all_succeeded_one|].
        replace (cart a) with (cart st). by apply Hpush.
      * injection Hbe as _ ->. simpl. split; [done|]. left.
        split; [|done]. by rewrite (all_succeeded_one _ _ _ _ Hj).
  - simpl. split; [done|]. right. split; [by apply all_succeeded_same|].
    destruct (list_find _ (cart st)) as [[i existing]|] eqn:Hfind.
    + by eapply Halter.
    + by apply Hpush.
Qed.

Lemma removeFromCart_outcome index st :
  let res := removeFromCart index st in
  (res.1 = Threw TypeError ∧ cart res.2 = cart st)
  ∨ (res.1 = Returned ∧ ¬ all_succeeded st res.2 ∧ cart res.2 = cart st)
  ∨ (res.1 = Returned ∧ all_succeeded st res.2
     ∧ cart res.2 = delete index (cart st)).
Proof.
  simpl. unfold removeFromCart.
  pose proof (splice_line_fields index st) as (Hj0 & _ & _ & Hc0).
  destruct (currentUser st);
    [|right; right; split; [done|]; split; [by apply all_succeeded_same|done]].
  destruct (cart st !! index) as [line|]; [|left; by split].
  destruct (truthy (l_id line));
    [|right; right; split; [done|]; split; [by apply all_succeeded_same|done]].
  round_trip E.
  match goal with H : requests a = _ |- _ => rename H into Hj end.
  pose proof (splice_line_fields index a) as (Hj' & _ & _ & Hc').
  destruct r; simpl;
    try (right; right; split; [done|];
         split; [eapply all_succeeded_one; [by rewrite Hj'|done]|congruence]).
  right. left. split; [done|]. split; [|done].
  by rewrite (all_succeeded_one _ _ _ _ Hj).
Qed.

Lemma assign_quantity_outcome index quantity st :
  let res := assign_quantity index quantity st in
  requests res.2 = requests st
  ∧ ((res.1 = Threw TypeError ∧ cart res.2 = cart st)
     ∨ (res.1 = Returned ∧ is_Some (cart st !! index)
        ∧ cart res.2 = alter (with_quantity quantity) index (cart st))).
Proof.
  simpl. split; [apply assign_quantity_journal|].
  unfold assign_quantity. destruct (cart st !! index) as [line|]; [|left; by split].
  right. split; [done|]. split; [eauto|]. simpl. by destruct (currentUser st).
Qed.

Lemma updateCartQuantity_outcome index quantity st :
  (1 ≤ quantity)%Z →
  let res := updateCartQuantity index quantity st in
  (res.1 = Threw TypeError ∧ cart res.2 = cart st)
  ∨ (res.1 = Returned ∧ ¬ all_succeeded st res.2 ∧ cart res.2 = cart st)
  ∨ (res.1 = Returned ∧ all_succeeded st res.2 ∧ is_Some (cart st !! index)
     ∧ cart res.2 = alter (with_quantity quantity) index (cart st)).
Proof.
  intros Hq. simpl. unfold updateCartQuantity. rewrite decide_False by lia.
  assert (∀ st0, cart st0 = cart st → all_succeeded st st0 →
            requests (assign_quantity index quantity st0).2 = requests st0 →
            all_succeeded st (assign_quantity index quantity st0).2) as Hall.
  { intros st0 _ H0 Hj0. unfold all_succeeded, issued in *. by rewrite Hj0. }
  assert (∀ st0, cart st0 = cart st → all_succeeded st st0 →
    let res := assign_quantity index quantity st0 in
    (res.1 = Threw TypeError ∧ cart res.2 = cart st)
    ∨ (res.1 = Returned ∧ ¬ all_succeeded st res.2 ∧ cart res.2 = cart st)
    ∨ (res.1 = Returned ∧ all_succeeded st res.2 ∧ is_Some (cart st !! index)
       ∧ cart res.2 = alter (with_quantity quantity) index (cart st))) as Hassign.
  { intros st0 Hc0 H0. simpl.
    destruct (assign_quantity_outcome index quantity st0)
      as [Hj [[Ht Hc]|(Hr & Hs & Hc)]].
    - left. split; [done|congruence].
    - right. right. split; [done|]. split; [by apply Hall|].
      rewrite Hc0 in Hs, Hc. by split. }
  destruct (currentUser st); [|by apply Hassign, all_succeeded_same].
  destruct (cart st !! index) as [line|] eqn:Hi; [|left; by split].
  destruct (truthy (l_id line)); [|by apply Hassign, all_succeeded_same].
  round_trip E.
  match goal with H : requests a = _ |- _ => rename H into Hj end.
  destruct r; try (apply Hassign; [done|by eapply all_succeeded_one]).
  right. left. split; [done|]. split; [|done].
  by rewrite (all_succeeded_one _ _ _ _ Hj).
Qed.

(** X8.  The number of items shown for the cart: a mutation that goes through
    changes it by the quantity added, by minus the quantity of the line
    removed, or by the difference to the quantity set; one that throws or
    whose request fails leaves it as it was. *)
Theorem item_count_after (op : CartOp) (st : App) :
  (went_through op st →
   cart_count (cart (run_op op st).2)
   = (cart_count (cart st) + count_change op (cart st))%Z)
  ∧ (¬ went_through op st →
     cart_count (cart (run_op op st).2) = cart_count (cart st)).
Proof.
  unfold went_through.
  assert (∀ index,
    (((removeFromCart index st).1 = Returned
      ∧ all_succeeded st (removeFromCart index st).2) →
     cart_count (cart (removeFromCart index st).2)
     = (cart_count (cart st) + - default 0 (l_quantity <$> cart st !! index))%Z)
    ∧ (¬ ((removeFromCart index st).1 = Returned
          ∧ all_succeeded st (removeFromCart index st).2) →
       cart_count (cart (removeFromCart index st).2) = cart_count (cart st)))
    as Hremove.
  { intros index.
    destruct (removeFromCart_outcome index st)
      as [[Ht Hc]|[(Hr & Hn & Hc)|(Hr & Ha & Hc)]]; rewrite Hc.
    - split; [|done]. intros [? _]. congruence.
    - split; [|done]. by intros [_ ?].
    - split; [|by intros []]. intros _. rewrite cart_count_delete. lia. }
  destruct op as [product size quantity|index|index quantity]; simpl.
  - destruct (addToCart_outcome product size quantity st)
      as [Hr [[Hn Hc]|[Ha Hc]]].
    + rewrite Hc. split; [|done]. by intros [_ ?].
    + split; [done|]. by intros [].
  - apply Hremove.
  - destruct (decide (quantity < 1)%Z) as [Hq|Hq].
    + unfold updateCartQuantity. rewrite decide_True by done. apply Hremove.
    + destruct (updateCartQuantity_outcome index quantity st)
        as [[Ht Hc]|[(Hr & Hn & Hc)|(Hr & Ha & [line Hi] & Hc)]]; [lia|..];
        rewrite Hc.
      * split; [|done]. intros [? _]. congruence.
      * split; [|done]. by intros [_ ?].
      * split; [|by intros []]. intros _.
        rewrite cart_count_alter, Hi. simpl. lia.
Qed.

(** ** Admin: what a save leaves behind *)

(** X9.  No product is written without an image: every write the form's
    [submit] listener issues carries a non-empty [image_url], the uploaded
    one when a file was picked.  When the upload fails, or no image is
    given, nothing is sent and the picked file is kept; after a save the
    picked file is forgotten. *)
Theorem submit_product_form_requires_image (f : InlineForm) (upload : string + string)
    (st : App) :
  let st' := (submit_product_form f upload st).2 in
  let chosen :=
    match selectedImageFile st, upload with
    | Some _, inr publicUrl => Some publicUrl
    | Some _, inl _ => None
    | None, _ => Some (inline_image f)
    end in
  (∀ url, chosen = Some url → url ≠ "" →
     product_writes (issued st st') = [product_write (inline_product_data f url)]
     ∧ pd_image_url (inline_product_data f url) = Some url
     ∧ selectedImageFile st' = None)
  ∧ (chosen = None ∨ chosen = Some "" →
     requests st' = requests st ∧ backend st' = backend st
     ∧ selectedImageFile st' = selectedImageFile st
     ∧ ∃ message, last (toasts st') = Some (message, error)).
Proof.
  simpl. unfold submit_product_form, save_and_reset.
  assert (∀ url st0, requests st0 = requests st →
            product_writes
              (issued st (set_selectedImageFile None
                            (saveAdminProduct (inline_product_data f url) st0).2))
            = [product_write (inline_product_data f url)]) as Hwrites.
  { intros url st0 Hj.
    pose proof (saveAdminProduct_writes (inline_product_data f url) st0) as Hw.
    unfold issued in *. simpl. by rewrite <- Hj. }
  destruct (selectedImageFile st) as [file|] eqn:Hfile.
  - destruct upload as [message|publicUrl].
    + split; [done|]. intros _. simpl. rewrite Hfile. repeat split.
      eexists. by rewrite last_snoc.
    + simpl. case_decide as Hurl.
      * subst publicUrl. split; [by intros url [= <-] ?|]. intros _. simpl.
        rewrite Hfile. repeat split. eexists. by rewrite last_snoc.
      * split; [|by intros [|[= ?]]].
        intros url [= <-] _. split; [by apply Hwrites|done].
  - simpl. case_decide as Hurl.
    + rewrite Hurl. split; [by intros url [= <-] ?|]. intros _. simpl.
      rewrite Hfile. repeat split. eexists. by rewrite last_snoc.
    + split; [|by intros [|[= ?]]].
      intros url [= <-] _. split; [by apply Hwrites|done].
Qed.

(** X10.  After a save that succeeds and a reload that succeeds, the products
    the page holds are the rows of the backend as the write left them, up
    to order, and the shop shows all of them. *)
Theorem saved_products_are_listed (pd : ProductData) (st : App) :
  fails (length (requests st)) = false →
  fails (S (length (requests st))) = false →
  let st' := (saveAdminProduct pd st).2 in
  be_products (backend st')
  = be_products (backend_exec (product_write pd) (backend st)).1
  ∧ allProducts st' ≡ₚ be_products (backend st')
  ∧ products st' = allProducts st'.
Proof.
  intros Hok1 Hok2. simpl. unfold saveAdminProduct, product_write.
  assert (∀ w st1 reply, send w st = (st1, reply) → is_product_write (w, true) →
    let st' :=
      (match reply with
       | RepError message =>
           (Returned, showToast ("Error saving product: " +:+ message) error st1)
       | _ =>
           loadAdminProducts
             (loadProducts no_filters
                (showToast
                   (if truthy (pd_id pd) then "Product updated successfully!"
                    else "Product created successfully!") success st1)).2
       end).2 in
    be_products (backend st') = be_products (backend_exec w (backend st)).1
    ∧ allProducts st' ≡ₚ be_products (backend st')
    ∧ products st' = allProducts st') as Hmain.
  { intros w st1 reply E Hwrite.
    apply send_spec in E as (_ & _ & _ & _ & _ & _ & _ & _ & Hj & Hbe).
    rewrite Hok1 in Hbe.
    assert (reply = RepDone ∧ backend st1 = (backend_exec w (backend st)).1)
      as [-> Hb1].
    { destruct w; try done; simpl in Hbe; by injection Hbe as -> ->. }
    set (st2 := showToast _ success st1).
    assert (select_products None None CreatedDesc (be_products (backend st1))
            ≡ₚ be_products (backend st1)) as Hsel.
    { unfold select_products. rewrite order_rows_perm.
      by rewrite !filter_all by (by apply Forall_forall). }
    assert (let st3 := (loadProducts no_filters st2).2 in
            backend st3 = backend st1
            ∧ allProducts st3
              = select_products None None CreatedDesc (be_products (backend st1))
            ∧ products st3 = allProducts st3) as (Hb3 & Ha3 & Hp3).
    { simpl. unfold loadProducts. simpl. round_trip E.
      match goal with H : (backend _, _) = _ |- _ => rename H into Hbe3 end.
      subst st2. simpl in Hbe3. rewrite Hj, length_app, Nat.add_1_r, Hok2 in Hbe3.
      simpl in Hbe3. injection Hbe3 as Hb3 ->. simpl. by rewrite Hb3. }
    set (st3 := (loadProducts no_filters st2).2) in *.
    assert (be_products (backend st3) = be_products (backend_exec w (backend st)).1
            ∧ allProducts st3 ≡ₚ be_products (backend st3)
            ∧ products st3 = allProducts st3) as Hfinal.
    { rewrite Hb3, Ha3. split; [by rewrite Hb1|]. split; [done|congruence]. }
    simpl. unfold loadAdminProducts.
    destruct (admin_products_body st3); [|exact Hfinal].
    destruct (allProducts st3) as [|p ps] eqn:Hall;
      [|simpl; rewrite Hall; exact Hfinal].
    assert (be_products (backend st1) = []) as Hempty.
    { apply Permutation_nil_r. by rewrite <- Hsel, <- Ha3. }
    round_trip E4.
    match goal with H : (backend _, _) = _ |- _ => rename H into Hbe4 end.
    assert (backend a = backend st1 ∧ rows_of r = []) as [Hb4 Hr4].
    { destruct (fails (length (requests st3))).
      - injection Hbe4 as -> ->. by rewrite Hb3.
      - simpl in Hbe4. injection Hbe4 as -> ->. rewrite Hb3, Hempty. split; [done|].
        simpl. apply Permutation_nil_r. unfold select_products.
        by rewrite order_rows_perm. }
    assert (products a = [] ∧ allProducts a = []) as [Hp4 Ha4]
      by (split; congruence).
    rewrite <- Hb1, Hempty.
    destruct r; simpl in Hr4; simplify_eq; simpl;
      rewrite Hb4, Hempty, ?Hp4, ?Ha4; by repeat split. }
  destruct (truthy (pd_id pd)).
  - destruct (send _ st) as [st1 reply] eqn:E. by apply Hmain.
  - destruct (send _ st) as [st1 reply] eqn:E. by apply Hmain.
Qed.

End Storefront.

(** ** Monthly revenue: the percent change *)

(** [nearest_tenth v] tenths are at most one twentieth away from the
    magnitude [v]. *)
Lemma nearest_tenth_spec (v : Q) :
  (0 <= v)%Q →
  (0 ≤ nearest_tenth v)%Z
  ∧ (Qabs (v * 10 - inject_Z (nearest_tenth v)) <= 1 # 2)%Q.
Proof.
  intros Hv. unfold nearest_tenth.
  set (n := Qfloor (v * 10 + (1 # 2))%Q).
  assert (inject_Z n <= v * 10 + (1 # 2))%Q as Hlo by apply Qfloor_le.
  assert (v * 10 + (1 # 2) < inject_Z (n + 1))%Q as Hhi by apply Qlt_floor.
  rewrite inject_Z_plus in Hhi. change (inject_Z 1) with 1%Q in Hhi.
  split.
  - change 0%Z with (Qfloor 0). apply Qfloor_resp_le. lra.
  - apply Qabs_Qle_condition. clearbody n.
    generalize dependent (inject_Z n). intros q ? ?. split; lra.
Qed.

(** C8, as amended. With a client and two successful queries,
    [calculateRevenue] returns the two sums and, when the previous sum is
    positive, the percent change [x] = (current − previous) / previous
    × 100, computed in the arithmetic of JavaScript numbers and then
    rounded to one decimal: below 10^21 in magnitude it is a whole number
    [n] of tenths, with the sign of [x], and [n / 10] is at most 0.05
    away from the magnitude of [x]; otherwise it is [x] itself.  When the
    previous sum is not positive the change is 0.  For 150 against 100
    the change is 50. *)
Theorem calculateRevenue_change (current last : option (list float)) :
  let c := revenue_sum current in
  let p := revenue_sum last in
  let r := calculateRevenue true (Totals current) (Totals last) in
  let x := ((c - p) / p * 100)%float in
  rev_total r = c ∧ rev_lastMonth r = p
  ∧ ((0 <? p)%float = true →
     (∀ v, exact x = Some v → (Qabs v < 10 ^ 21)%Q →
        ∃ n : Z,
          (0 ≤ n)%Z
          ∧ rev_change r = (if (x <? 0)%float then (- tenths n)%float else tenths n)
          ∧ (Qabs (Qabs v * 10 - inject_Z n) <= 1 # 2)%Q)
     ∧ ((∀ v, exact x = Some v → (10 ^ 21 <= Qabs v)%Q) → rev_change r = x))
  ∧ ((0 <? p)%float = false → rev_change r = 0%float)
  ∧ rev_change
      (calculateRevenue true (Totals (Some [150%float])) (Totals (Some [100%float])))
    = 50%float.
Proof.
  simpl. unfold percent_change. split; [done|]. split; [done|]. split; [|split].
  - intros ->. unfold to_fixed_1. split.
    + intros v -> Hsmall.
      destruct (Qlt_le_dec (Qabs v) (10 ^ 21)) as [_|Hbig].
      * exists (nearest_tenth (Qabs v)).
        destruct (nearest_tenth_spec (Qabs v) (Qabs_nonneg v)) as [Hn Hnear].
        split; [done|]. split; [|done]. by case_match.
      * exfalso. by apply (Qlt_not_le _ _ Hsmall).
    + intros Hbig. destruct (exact _) as [v|] eqn:Hv; [|done].
      destruct (Qlt_le_dec (Qabs v) (10 ^ 21)) as [Hsmall|_]; [|done].
      exfalso. by apply (Qlt_not_le _ _ Hsmall), Hbig.
  - by intros ->.
  - by vm_compute.
Qed.

(** ** The statements at the sample inputs *)

Lemma sample_order_rows_perm k rows : Sample.order_rows k rows ≡ₚ rows.
Proof.
  destruct k; simpl; auto using merge_sort_Permutation, reverse_Permutation.
Qed.

(** Alice adds an oxford shirt (M) once, then twice more, each call
    settling before the next: one line, quantity 3.  Adding the pair
    again to her filled cart adds no line. *)
Lemma addToCart_one_line_per_pair_witness :
  (∃ line,
     lines_of "p-oxford" "M"
       (cart (run_events Sample.never_fails Sample.ilike Sample.order_rows
                (one_by_one Sample.oxford "M" [1; 2]%Z) Sample.alice_empty).1) = [line]
     ∧ l_quantity line = 3%Z)
  ∧ (length (lines_of "p-oxford" "M"
               (cart (run_op Sample.never_fails Sample.ilike Sample.order_rows
                        (Add Sample.oxford "M" 1%Z) Sample.alice_shopping).2))
     ≤ 1)%nat.
Proof.
  destruct (addToCart_one_line_per_pair Sample.never_fails Sample.ilike
              Sample.order_rows Sample.oxford "M") as (Hseq & Hop & _).
  split.
  - apply (Hseq 1%Z [2%Z] Sample.alice_empty).
    + reflexivity.
    + vm_compute. repeat constructor.
  - destruct (Hop Sample.alice_shopping) as [Hrun _].
    + vm_compute. discriminate.
    + apply (Hrun (Add Sample.oxford "M" 1%Z)).
Defined.

(** C1, counterexamples to the statement for every sequence of calls and
    every operation.  Alice clicks twice before the first reply is in:
    both calls find no line, both requests succeed, and the cart ends
    with two lines for the pair, of 1 and of 2.  With the backend down,
    two calls adding 1 and 2 leave no line for the pair.  And Alice, with
    one line for the pair, loads a cart for which the backend holds two
    rows of the pair: she has two lines. *)
Lemma addToCart_sequence_counterexample :
  (let events :=
     [Click Sample.oxford "M" 1%Z; Click Sample.oxford "M" 2%Z; Settle 0; Settle 0] in
   let st' :=
     (run_events Sample.never_fails Sample.ilike Sample.order_rows
        events Sample.alice_empty).1 in
   lines_of "p-oxford" "M" (cart Sample.alice_empty) = []
   ∧ all_succeeded Sample.alice_empty st'
   ∧ all_settled Sample.never_fails Sample.ilike Sample.order_rows
       events Sample.alice_empty
   ∧ l_quantity <$> lines_of "p-oxford" "M" (cart st') = [1; 2]%Z)
  ∧ (let st' :=
       add_all Sample.always_fails Sample.ilike Sample.order_rows
         Sample.oxford "M" [1; 2]%Z Sample.alice_empty in
     lines_of "p-oxford" "M" (cart Sample.alice_empty) = []
     ∧ ¬ ∃ line, lines_of "p-oxford" "M" (cart st') = [line] ∧ l_quantity line = 3%Z)
  ∧ (let data :=
       [(mkCartRow "row-1" "u-alice" "p-oxford" 1 "M", Sample.oxford);
        (mkCartRow "row-7" "u-alice" "p-oxford" 2 "M", Sample.oxford)] in
     length (lines_of "p-oxford" "M" (cart Sample.alice_shopping)) = 1%nat
     ∧ length (lines_of "p-oxford" "M"
                 (cart (loadCart (CartRows data) Sample.alice_shopping).2)) = 2%nat).
Proof.
  split; [|split].
  - vm_compute. split; [done|]. split; [repeat constructor|done].
  - split; [reflexivity|]. intros (line & Hline & _). vm_compute in Hline. discriminate.
  - by vm_compute.
Qed.

(** The example of the specification: an oxford shirt at 89.99 and two
    linen shirts at 75.00 give an order of 239.99 whose two items hold
    the names, prices and images of the two shirts. *)
Lemma processCheckout_order_witness :
  ∃ row,
    be_orders (backend (processCheckout Sample.never_fails Sample.ilike
                          Sample.order_rows Sample.alice_shopping).2) = [row]
    ∧ o_total row = Sample.price 23999 100
    ∧ o_items row
      = [mkOrderItem "p-oxford" "Classic Oxford Shirt" 1 "M" (Sample.price 8999 100)
           "oxford.jpg";
         mkOrderItem "p-linen" "Linen Summer Shirt" 2 "L" (Sample.price 75 1)
           "linen.jpg"].
Proof.
  destruct (processCheckout_order Sample.never_fails Sample.ilike Sample.order_rows
              Sample.alice_shopping Sample.alice)
    as (row & Horders & Htotal & Hitems & _).
  - discriminate.
  - reflexivity.
  - reflexivity.
  - exists row. split; [exact Horders|]. split.
    + rewrite Htotal. vm_compute. reflexivity.
    + apply Forall2_cons_inv_l in Hitems as (oi1 & rest1 & H1 & Hitems & ->).
      apply Forall2_cons_inv_l in Hitems as (oi2 & rest2 & H2 & Hitems & ->).
      apply Forall2_nil_inv_l in Hitems as ->.
      destruct H1 as (? & ? & ? & ? & ? & ?), H2 as (? & ? & ? & ? & ? & ?).
      destruct oi1, oi2. simpl in *. by subst.
Defined.

(** Alice's checkout with a working backend empties her cart and her
    rows. *)
Lemma processCheckout_clears_cart_witness :
  let st' :=
    (processCheckout Sample.never_fails Sample.ilike Sample.order_rows
       Sample.alice_shopping).2 in
  cart st' = [] ∧ stored_cart st' = None ∧ rows_of_user "u-alice" (backend st') = [].
Proof.
  destruct (processCheckout_clears_cart Sample.never_fails Sample.ilike
              Sample.order_rows Sample.alice_shopping Sample.alice)
    as (_ & Hcart & Hstored & Hrows & _).
  - reflexivity.
  - discriminate.
  - reflexivity.
  - split; [exact Hcart|]. split; [exact Hstored|]. apply Hrows. reflexivity.
Defined.

(** C3, counterexample to the statement without the condition on the
    delete: the insert succeeds and the delete after it fails; the order
    is placed and the cart emptied, yet both of Alice's rows are still in
    the backend. *)
Lemma processCheckout_rows_remain_counterexample :
  let st' :=
    (processCheckout Sample.second_fails Sample.ilike Sample.order_rows
       Sample.alice_shopping).2 in
  Sample.second_fails (length (requests Sample.alice_shopping)) = false
  ∧ length (be_orders (backend st')) = 1%nat
  ∧ cart st' = []
  ∧ rows_of_user "u-alice" (backend st') = Sample.alice_rows
  ∧ rows_of_user "u-alice" (backend st') ≠ [].
Proof. vm_compute. repeat split. discriminate. Qed.

(** With the backend down, Alice's add is abandoned; a guest's change of
    quantity goes through. *)
Lemma cart_mutation_failure_witness :
  (let res :=
     run_op Sample.always_fails Sample.ilike Sample.order_rows
       (Add Sample.oxford "M" 1%Z) Sample.alice_empty in
   res.1 = Returned ∧ cart res.2 = [] ∧ backend res.2 = Sample.empty_backend)
  ∧ (let res :=
       run_op Sample.always_fails Sample.ilike Sample.order_rows
         (SetQuantity 0 5%Z) Sample.guest_shopping in
     res.1 = Returned ∧ requests res.2 = []).
Proof.
  split.
  - destruct (cart_mutation_failure Sample.always_fails Sample.ilike Sample.order_rows
                (Add Sample.oxford "M" 1%Z) Sample.alice_empty) as [Hfail _].
    destruct (Hfail (InsertCartItem "u-alice" "p-oxford" 1 "M"))
      as (Hret & Hcart & _ & Hbackend & _).
    + reflexivity.
    + split; [exact Hret|]. split; [exact Hcart|exact Hbackend].
  - destruct (cart_mutation_failure Sample.always_fails Sample.ilike Sample.order_rows
                (SetQuantity 0 5%Z) Sample.guest_shopping) as [_ Hanon].
    destruct Hanon as (Hret & Hrequests & _).
    + reflexivity.
    + simpl. lia.
    + split; [exact Hret|exact Hrequests].
Defined.

(** C4, counterexample to "the error is surfaced to the caller": the
    request of Alice's add fails, and [addToCart] completes exactly as it
    does when the request succeeds. *)
Lemma addToCart_error_not_returned_counterexample :
  let failing :=
    addToCart Sample.always_fails Sample.ilike Sample.order_rows
      Sample.oxford "M" 1%Z Sample.alice_empty in
  let working :=
    addToCart Sample.never_fails Sample.ilike Sample.order_rows
      Sample.oxford "M" 1%Z Sample.alice_empty in
  requests failing.2 = [(InsertCartItem "u-alice" "p-oxford" 1 "M", false)]
  ∧ failing.1 = Returned
  ∧ failing.1 = working.1.
Proof. vm_compute. repeat split. Qed.

(** Setting the quantity of Alice's first line to 0 is removing it. *)
Lemma updateCartQuantity_below_one_removes_witness :
  updateCartQuantity Sample.never_fails Sample.ilike Sample.order_rows
    0 0%Z Sample.alice_shopping
  = removeFromCart Sample.never_fails Sample.ilike Sample.order_rows
      0 Sample.alice_shopping.
Proof.
  apply (updateCartQuantity_below_one_removes Sample.never_fails Sample.ilike
           Sample.order_rows 0 0%Z Sample.alice_shopping).
  lia.
Defined.

(** A guest with a filled cart is turned away at checkout. *)
Lemma processCheckout_rejects_witness :
  let st' :=
    (processCheckout Sample.never_fails Sample.ilike Sample.order_rows
       Sample.guest_shopping).2 in
  requests st' = [] ∧ backend st' = Sample.empty_backend
  ∧ cart st' = Sample.guest_lines.
Proof.
  destruct (processCheckout_rejects Sample.never_fails Sample.ilike Sample.order_rows
              Sample.guest_shopping) as (_ & Hrequests & Hbackend & _ & _ & Hcart & _).
  - right. reflexivity.
  - split; [exact Hrequests|]. split; [exact Hbackend|exact Hcart].
Defined.

(** Casual shirts in size S, newest first: of the three shirts only the
    linen one, the oxford shirt being formal and the flannel shirt
    starting at M. *)
Lemma loadProducts_size_filter_witness :
  let filters := mkFilters (Some "casual") None (Some "S") None in
  products (loadProducts Sample.never_fails Sample.ilike Sample.order_rows
              filters Sample.guest_empty).2
  = [Sample.linen].
Proof.
  destruct (loadProducts_size_filter Sample.never_fails Sample.ilike Sample.order_rows
              sample_order_rows_perm
              (mkFilters (Some "casual") None (Some "S") None) "S"
              Sample.guest_empty)
    as (k & (_ & _ & _ & Hk) & Hall & Hshown & _).
  - reflexivity.
  - discriminate.
  - reflexivity.
  - cbv zeta. rewrite Hshown, Hall, Hk.
    + by vm_compute.
    + apply (bool_decide_unpack _). by vm_compute.
Defined.

(** A stock adjustment carries an identifier and updates; a new product
    carries none and is inserted. *)
Lemma save_product_routes_witness :
  let adjust :=
    mkProductData (Some "p-oxford") None None None None None None (Some 40%Z) None None in
  let create :=
    mkProductData None (Some "Denim Western Shirt") None None None None None None None None in
  product_writes
    (issued Sample.alice_empty
       (saveAdminProduct Sample.never_fails Sample.ilike Sample.order_rows
          adjust Sample.alice_empty).2)
  = [UpdateProduct "p-oxford" adjust]
  ∧ product_writes
      (issued Sample.alice_empty
         (saveAdminProduct Sample.never_fails Sample.ilike Sample.order_rows
            create Sample.alice_empty).2)
    = [InsertProduct create].
Proof.
  intros adjust create.
  destruct (save_product_routes Sample.never_fails Sample.ilike Sample.order_rows)
    as [Hpanel _].
  split.
  - destruct (Hpanel adjust Sample.alice_empty) as (w & Hw & Hupdate & _).
    rewrite Hw. f_equal. apply Hupdate. split; [reflexivity|discriminate].
  - destruct (Hpanel create Sample.alice_empty) as (w & Hw & _ & Hinsert).
    rewrite Hw. f_equal. apply Hinsert. intros id [Hid _]. discriminate.
Defined.

(** A PNG of 200 KB is taken; a PDF and a PNG of 6 MB are refused. *)
Lemma on_image_file_change_checks_witness :
  selectedImageFile (on_image_file_change [Sample.image] Sample.alice_empty)
  = Some Sample.image
  ∧ selectedImageFile (on_image_file_change [Sample.document] Sample.alice_empty)
    = None
  ∧ selectedImageFile (on_image_file_change [Sample.poster] Sample.alice_empty)
    = None.
Proof.
  split; [|split].
  - destruct (on_image_file_change_checks Sample.image [] Sample.alice_empty)
      as [Haccept _].
    destruct Haccept as (Hselected & _).
    + split; [reflexivity|]. vm_compute. discriminate.
    + exact Hselected.
  - destruct (on_image_file_change_checks Sample.document [] Sample.alice_empty)
      as [_ Hreject].
    destruct Hreject as (Hselected & _).
    + intros [Hprefix _]. vm_compute in Hprefix. discriminate.
    + exact Hselected.
  - destruct (on_image_file_change_checks Sample.poster [] Sample.alice_empty)
      as [_ Hreject].
    destruct Hreject as (Hselected & _).
    + intros [_ Hsize]. vm_compute in Hsize. by apply Hsize.
    + exact Hselected.
Defined.

(** 103 against 80: the previous sum is positive and the change, 28.75
    before the numbers are rounded, is a whole number of tenths. *)
Lemma calculateRevenue_change_witness :
  ∃ n : Z,
    (0 ≤ n)%Z
    ∧ rev_change
        (calculateRevenue true (Totals (Some [103%float])) (Totals (Some [80%float])))
      = tenths n.
Proof.
  destruct (calculateRevenue_change (Some [103%float]) (Some [80%float]))
    as (_ & _ & Hpos & _).
  destruct Hpos as (Hgrid & _); [reflexivity|].
  edestruct Hgrid as (n & Hn & Hchange & _).
  - vm_compute. reflexivity.
  - by vm_compute.
  - exists n. split; [exact Hn|exact Hchange].
Defined.

(** C8, counterexample to the statement without the rounding: for 100
    against 300 the quotient times 100 is -66.66666666666667 and the
    function returns -66.7.  The rounding acts on the number computed:
    for 103 against 80 that is 28.749999999999996, not 28.75, and the
    function returns 28.7. *)
Lemma calculateRevenue_change_counterexample :
  let r := calculateRevenue true (Totals (Some [100%float])) (Totals (Some [300%float])) in
  let r' := calculateRevenue true (Totals (Some [103%float])) (Totals (Some [80%float])) in
  (0 <? rev_lastMonth r)%float = true
  ∧ rev_change r = (- tenths 667)%float
  ∧ rev_change r = (-667 / 10)%float
  ∧ rev_change r ≠ ((rev_total r - rev_lastMonth r) / rev_lastMonth r * 100)%float
  ∧ rev_change r' = tenths 287
  ∧ rev_change r' = (287 / 10)%float.
Proof.
  simpl. split; [by vm_compute|]. split; [by vm_compute|]. split; [by vm_compute|].
  split; [|by vm_compute].
  intros H. apply (f_equal Prim2SF) in H. vm_compute in H. discriminate.
Qed.

(** * The analytics module: CSV export *)

Section SplitFacts.

Variable c : ascii.

Lemma count_char_cons (a : ascii) (s : string) :
  count_char c (String a s)
  = ((if decide (a = c) then 1 else 0) + count_char c s)%nat.
Proof.
  unfold count_char. simpl. rewrite filter_cons. by destruct (decide (a = c)).
Qed.

Lemma count_char_app (s t : string) :
  count_char c (String.append s t) = (count_char c s + count_char c t)%nat.
Proof.
  induction s as [|a s IH]; [done|].
  change (String.append (String a s) t) with (String a (String.append s t)).
  rewrite !count_char_cons, IH. lia.
Qed.

Lemma length_split_on (s : string) :
  length (split_on c s) = S (count_char c s).
Proof.
  induction s as [|a s IH]; [done|].
  simpl. rewrite count_char_cons.
  destruct (decide (a = c)); simpl; [by rewrite IH|].
  destruct (split_on c s); simpl in *; lia.
Qed.

Lemma split_on_plain (s : string) :
  count_char c s = 0%nat → split_on c s = [s].
Proof.
  induction s as [|a s IH]; [done|].
  rewrite count_char_cons. simpl.
  destruct (decide (a = c)); [lia|].
  intros Hs. by rewrite IH.
Qed.

Lemma split_on_app (s t : string) :
  count_char c s = 0%nat
  → split_on c (String.append s (String c t)) = s :: split_on c t.
Proof.
  induction s as [|a s IH].
  - intros _. change (String.append EmptyString (String c t)) with (String c t).
    simpl. by rewrite decide_True.
  - rewrite count_char_cons.
    change (String.append (String a s) (String c t))
      with (String a (String.append s (String c t))).
    simpl. destruct (decide (a = c)); [lia|].
    intros Hs. by rewrite IH.
Qed.

Lemma split_on_concat (fields : list string) :
  fields ≠ []
  → Forall (λ field, count_char c field = 0%nat) fields
  → split_on c (String.concat (String c EmptyString) fields) = fields.
Proof.
  induction fields as [|field fields IH]; [done|].
  intros _ Hplain. apply Forall_cons in Hplain as [Hfield Hfields].
  destruct fields as [|next fields].
  - simpl. by apply split_on_plain.
  - change (String.concat (String c EmptyString) (field :: next :: fields))
      with (String.append field
              (String c (String.concat (String c EmptyString) (next :: fields)))).
    rewrite split_on_app by done. f_equal. by apply IH.
Qed.

Lemma count_char_concat (d : ascii) (fields : list string) :
  count_char c (String.concat (String d EmptyString) fields)
  = ((if decide (d = c) then pred (length fields) else 0)
     + sum_list (count_char c <$> fields))%nat.
Proof.
  induction fields as [|field fields IH]; [by destruct (decide (d = c))|].
  destruct fields as [|next fields].
  - simpl. destruct (decide (d = c)); lia.
  - change (String.concat (String d EmptyString) (field :: next :: fields))
      with (String.append field
              (String d (String.concat (String d EmptyString) (next :: fields)))).
    rewrite count_char_app, count_char_cons, IH.
    destruct (decide (d = c)); simpl; lia.
Qed.

End SplitFacts.

Lemma sum_list_zero (l : list nat) :
  Forall (λ n, n = 0%nat) l → sum_list l = 0%nat.
Proof. induction 1; simpl; lia. Qed.


Section ExportFacts.

Variable number_text : float → string.
Variable toLocaleDateString : string → string.


(** X12.  The product export writes values as they are: the line of a
    product has seven columns plus one for every comma inside its
    values, so a comma in a name or a category shifts the columns that
    follow. *)
Theorem exportProductsCSV_columns (data : list ProductExport) (i : nat)
    (p : ProductExport) (csv : string) :
  (exportProductsCSV number_text true (RowsData (Some data))).1
  = Some (csv, "products_export.csv")
  → data !! i = Some p
  → Forall (λ p, Forall (λ field, count_char "010"%char field = 0%nat)
                   (product_fields number_text p)) data
  → ∃ line,
      split_on "010"%char csv !! S i = Some line
      ∧ length (split_on ","%char line)
        = (7 + sum_list (count_char ","%char <$> product_fields number_text p))%nat.
Proof.
  intros Hcsv Hp Hlines. simpl in Hcsv. injection Hcsv as <-.
  exists (String.concat comma (product_fields number_text p)). split.
  - unfold csv_of.
    change (String.concat comma products_headers
            :: (String.concat comma <$> (product_fields number_text <$> data)))
      with (String.concat comma
              <$> products_headers :: (product_fields number_text <$> data)).
    rewrite split_on_concat.
    + simpl. rewrite !list_lookup_fmap, Hp. done.
    + done.
    + apply Forall_fmap, Forall_cons. split.
      * reflexivity.
      * apply Forall_fmap. eapply Forall_impl; [exact Hlines|].
        intros q Hq. unfold compose, comma. rewrite count_char_concat.
        rewrite decide_False by done.
        change (sum_list (count_char "010"%char <$> product_fields number_text q)
                = 0%nat).
        apply sum_list_zero, Forall_fmap.
        eapply Forall_impl; [exact Hq|]. done.
  - rewrite length_split_on. unfold comma. rewrite count_char_concat.
    rewrite decide_True by done. reflexivity.
Qed.

End ExportFacts.

(** * The analytics module: grouping *)

Lemma filter_none {A} (P : A → Prop) `{!∀ x, Decision (P x)} (l : list A) :
  Forall (λ x, ¬ P x) l → filter P l = [].
Proof. induction 1; [done|]. by rewrite filter_cons_False. Qed.

Lemma first_seen_snoc (keys : list string) (k : string) :
  first_seen (keys ++ [k])
  = if decide (k ∈ keys) then first_seen keys else first_seen keys ++ [k].
Proof.
  unfold first_seen. rewrite reverse_snoc. simpl.
  destruct (decide_rel elem_of k (reverse keys)) as [Hin|Hin];
    rewrite elem_of_reverse in Hin.
  - by rewrite decide_True.
  - rewrite decide_False by done. by rewrite reverse_cons.
Qed.

Lemma elem_of_first_seen (keys : list string) (k : string) :
  k ∈ first_seen keys ↔ k ∈ keys.
Proof.
  unfold first_seen. by rewrite elem_of_reverse, elem_of_remove_dups, elem_of_reverse.
Qed.

Lemma NoDup_first_seen (keys : list string) : NoDup (first_seen keys).
Proof. unfold first_seen. rewrite reverse_Permutation. apply NoDup_remove_dups. Qed.

Section ObjectFacts.

Context {V : Type} (add_to : option V → V → V).

Lemma obj_get_set (k key : string) (v : V) (o : list (string * V)) :
  obj_get k (obj_set key v o) = if decide (k = key) then Some v else obj_get k o.
Proof.
  induction o as [|e o IH]; simpl.
  - destruct (decide (key = k)), (decide (k = key)); congruence.
  - destruct (decide (e.1 = key)) as [He|He]; simpl.
    + destruct (decide (key = k)), (decide (k = key)); try congruence.
      destruct (decide (e.1 = k)); congruence.
    + destruct (decide (e.1 = k)) as [Hk|Hk]; [|apply IH].
      destruct (decide (k = key)); congruence.
Qed.

Lemma obj_get_elem (key : string) (v : V) (o : list (string * V)) :
  NoDup o.*1 → (key, v) ∈ o ↔ obj_get key o = Some v.
Proof.
  induction o as [|e o IH]; simpl.
  - intros _. split; [by intros ?%elem_of_nil|done].
  - intros [Hfresh Hrest]%NoDup_cons. rewrite elem_of_cons.
    destruct (decide (e.1 = key)) as [He|He].
    + split.
      * intros [<-|Hin]; [done|]. destruct Hfresh. rewrite He.
        apply list_elem_of_fmap. by exists (key, v).
      * intros [= <-]. left. destruct e. simpl in He. by subst.
    + rewrite <- (IH Hrest). split; [|by right].
      intros [<-|Hin]; [by destruct He|done].
Qed.

Lemma obj_set_keys (key : string) (v : V) (o : list (string * V)) :
  (obj_set key v o).*1 = if decide (key ∈ o.*1) then o.*1 else o.*1 ++ [key].
Proof.
  induction o as [|e o IH]; csimpl; [done|].
  - destruct (decide (e.1 = key)) as [He|He]; csimpl.
    + rewrite decide_True by (rewrite He; apply list_elem_of_here). by rewrite He.
    + rewrite IH. destruct (decide (key ∈ o.*1)) as [Hin|Hin].
      * rewrite decide_True by (by apply list_elem_of_further). done.
      * rewrite decide_False; [done|].
        intros [->|?]%elem_of_cons; [by destruct He|done].
Qed.

Lemma filed_snoc (key : string) (rows : list (string * V)) (row : string * V) :
  filed key (rows ++ [row])
  = filed key rows ++ (if decide (row.1 = key) then [row.2] else []).
Proof.
  unfold filed. rewrite filter_app, fmap_app. f_equal.
  rewrite filter_cons, filter_nil. by destruct (decide (row.1 = key)).
Qed.

Lemma added_snoc (xs : list V) (x : V) :
  added add_to (xs ++ [x]) = Some (add_to (added add_to xs) x).
Proof. unfold added. by rewrite foldl_snoc. Qed.

Lemma accumulate_snoc (rows : list (string * V)) (row : string * V) :
  accumulate add_to (rows ++ [row])
  = accumulate add_to rows ≫= obj_add add_to row.1 row.2.
Proof. unfold accumulate. by rewrite foldl_snoc. Qed.

(** What [forEach] leaves in the object. *)
Lemma accumulate_spec (rows : list (string * V)) :
  Forall (λ row, row.1 ∉ inherited_names) rows
  → ∃ o, accumulate add_to rows = Some o
      ∧ o.*1 = first_seen rows.*1
      ∧ ∀ key, obj_get key o = added add_to (filed key rows).
Proof.
  induction rows as [|row rows IH] using rev_ind.
  - intros _. by exists [].
  - intros [Hrows Hrow]%Forall_app. rewrite Forall_singleton in Hrow.
    destruct (IH Hrows) as (o & Ho & Hkeys & Hget).
    rewrite accumulate_snoc, Ho. simpl.
    unfold obj_add. rewrite decide_False by done.
    assert (Hfst : (rows ++ [row]).*1 = rows.*1 ++ [row.1]) by (by rewrite fmap_app).
    rewrite Hfst.
    eexists. split; [done|]. split.
    + rewrite obj_set_keys, first_seen_snoc, Hkeys.
      destruct (decide (row.1 ∈ rows.*1)) as [Hin|Hin].
      * by rewrite decide_True by (by apply elem_of_first_seen).
      * by rewrite decide_False by (by rewrite elem_of_first_seen).
    + intros key. rewrite obj_get_set, filed_snoc.
      destruct (decide (key = row.1)) as [->|Hne].
      * rewrite decide_True by done. by rewrite added_snoc, Hget.
      * rewrite (decide_False (P := row.1 = key)) by congruence.
        by rewrite app_nil_r, Hget.
Qed.

Lemma added_None (xs : list V) : added add_to xs = None ↔ xs = [].
Proof.
  split; [|by intros ->].
  destruct xs as [|x xs _] using rev_ind; [done|]. by rewrite added_snoc.
Qed.

Lemma filed_nil (key : string) (rows : list (string * V)) :
  filed key rows = [] ↔ key ∉ rows.*1.
Proof.
  unfold filed. induction rows as [|row rows IH]; csimpl.
  - split; [intros _; apply not_elem_of_nil|done].
  - rewrite filter_cons, not_elem_of_cons.
    destruct (decide (row.1 = key)) as [He|He]; csimpl.
    + split; [done|]. intros [Hne _]. by destruct Hne.
    + rewrite IH. split; [by intros ?; split|by intros [_ ?]].
Qed.

Lemma filter_fst (P : string → Prop) (Q : string * V → Prop)
    `{!∀ k, Decision (P k), !∀ e, Decision (Q e)} (o : list (string * V)) :
  (∀ e, Q e ↔ P e.1) → (filter Q o).*1 = filter P o.*1.
Proof.
  intros HQ. induction o as [|e o IH]; [done|].
  csimpl. rewrite !filter_cons.
  destruct (decide (Q e)) as [Hq|Hq], (decide (P e.1)) as [Hp|Hp];
    csimpl; rewrite ?IH; try done.
  - by apply HQ in Hq.
  - by apply HQ in Hp.
Qed.

Lemma object_entries_Permutation (o : list (string * V)) : object_entries o ≡ₚ o.
Proof.
  unfold object_entries. rewrite merge_sort_Permutation.
  rewrite <- (filter_app_complement (λ e : string * V, is_Some (array_index e.1)) o) at 3.
  apply Permutation_app; [done|].
  rewrite (list_filter_iff (λ e : string * V, array_index e.1 = None)
             (λ e, ¬ is_Some (array_index e.1))); [done|].
  intros e. apply eq_None_not_Some.
Qed.

Lemma object_entries_no_index (o : list (string * V)) :
  Forall (λ e, array_index e.1 = None) o → object_entries o = o.
Proof.
  intros Hnone. unfold object_entries.
  rewrite (filter_none (λ e : string * V, is_Some (array_index e.1)) o).
  - simpl. by apply filter_all.
  - eapply Forall_impl; [exact Hnone|]. intros e He. by rewrite <- eq_None_not_Some.
Qed.

(** What a grouping function returns: the entries of the object, in the
    order JavaScript lists them. *)
Lemma grouped_spec (rows : list (string * V)) :
  Forall (λ row, row.1 ∉ inherited_names) rows
  → ∃ entries,
      object_entries <$> accumulate add_to rows = Some entries
      ∧ NoDup entries.*1
      ∧ entries.*1 ≡ₚ first_seen rows.*1
      ∧ listed (first_seen rows.*1) entries.*1
      ∧ (Forall (λ row, array_index row.1 = None) rows
         → entries.*1 = first_seen rows.*1)
      ∧ (∀ key v, (key, v) ∈ entries
                  ↔ key ∈ rows.*1 ∧ added add_to (filed key rows) = Some v)
      ∧ entries ≡ₚ default [] (accumulate add_to rows).
Proof.
  intros Hnames.
  destruct (accumulate_spec rows Hnames) as (o & Ho & Hkeys & Hget).
  assert (Hdistinct : NoDup o.*1) by (rewrite Hkeys; apply NoDup_first_seen).
  exists (object_entries o). rewrite Ho. simpl.
  split; [done|]. split; [|split; [|split; [|split; [|split]]]].
  - by rewrite object_entries_Permutation.
  - by rewrite object_entries_Permutation, Hkeys.
  - rewrite <- Hkeys. unfold object_entries.
    exists (merge_sort index_before
              (filter (λ e : string * V, is_Some (array_index e.1)) o)).*1.
    split; [|split].
    + rewrite fmap_app. f_equal. by apply filter_fst.
    + rewrite merge_sort_Permutation.
      by rewrite (filter_fst (λ k, is_Some (array_index k))
                    (λ e, is_Some (array_index e.1))).
    + apply (Sorted_fmap fst index_before); [done|].
      apply Sorted_merge_sort. intros a b. unfold index_before. lia.
  - intros Hnone. rewrite object_entries_no_index; [done|].
    apply Forall_forall. intros e He.
    assert (Hkey : e.1 ∈ rows.*1).
    { apply elem_of_first_seen. rewrite <- Hkeys. apply list_elem_of_fmap. by exists e. }
    apply list_elem_of_fmap in Hkey as (row & -> & Hrow).
    by apply (proj1 (Forall_forall _ _) Hnone).
  - intros key v. rewrite object_entries_Permutation.
    rewrite (obj_get_elem _ _ _ Hdistinct), Hget.
    split; [|by intros [_ ?]].
    intros Hv. split; [|done].
    apply dec_stable. intros Hout. apply filed_nil in Hout.
    by rewrite Hout in Hv.
  - apply object_entries_Permutation.
Qed.

End ObjectFacts.

Lemma Zsum_app (l k : list Z) : Zsum (l ++ k) = (Zsum l + Zsum k)%Z.
Proof. induction l as [|x l IH]; simpl; [done|]. unfold Zsum in *. simpl. lia. Qed.

Lemma Zsum_Permutation (l k : list Z) : l ≡ₚ k → Zsum l = Zsum k.
Proof.
  unfold Zsum. induction 1 as [|x l k _ IH|x y l|l k m _ IH1 _ IH2]; simpl; lia.
Qed.

(** On whole numbers a property holds the sum of what was added to it. *)
Lemma added_count (xs : list Z) :
  added add_count xs = match xs with [] => None | _ => Some (Zsum xs) end.
Proof.
  assert (∀ current,
            foldl (λ current x, Some (add_count current x)) current xs
            = match xs with
              | [] => current
              | _ => Some (default 0 current + Zsum xs)%Z
              end) as Hgen.
  { induction xs as [|x xs IH]; intros current; [done|].
    simpl. rewrite IH. unfold add_count, Zsum. destruct xs; simpl; f_equal; lia. }
  unfold added. rewrite Hgen. destruct xs; [done|]. simpl. f_equal.
Qed.

Lemma obj_set_count_total (key : string) (x : Z) (o : list (string * Z)) :
  Zsum (obj_set key (add_count (obj_get key o) x) o).*2 = (Zsum o.*2 + x)%Z.
Proof.
  unfold add_count, Zsum. induction o as [|e o IH]; csimpl; [lia|].
  destruct (decide (e.1 = key)) as [He|He]; csimpl; [lia|].
  rewrite IH. lia.
Qed.

Lemma accumulate_count_total (rows : list (string * Z)) :
  Zsum (default [] (accumulate add_count rows)).*2
  = match accumulate add_count rows with
    | Some _ => Zsum rows.*2
    | None => 0%Z
    end.
Proof.
  induction rows as [|row rows IH] using rev_ind; [done|].
  rewrite accumulate_snoc. destruct (accumulate add_count rows) as [o|]; [|done].
  simpl in *. unfold obj_add. destruct (decide (row.1 ∈ inherited_names)); [done|].
  simpl. rewrite obj_set_count_total, IH, fmap_app, Zsum_app.
  unfold Zsum. simpl. lia.
Qed.

(** On numbers it holds their sum taken from left to right. *)
Lemma added_number (xs : list float) :
  added add_number xs = match xs with [] => None | _ => Some (running_sum xs) end.
Proof.
  assert (∀ (l : list float) sum,
            foldl (λ current x, Some (add_number current x)) (Some sum) l
            = Some (foldl (λ sum x, (or_zero sum + x)%float) sum l)) as Hgen.
  { induction l as [|x l IH]; intros sum; [done|]. simpl. by rewrite IH. }
  destruct xs as [|x xs]; [done|].
  unfold added, running_sum. simpl. by rewrite Hgen.
Qed.

Lemma filed_fmap {A V} (f : A → string) (g : A → V) (key : string) (l : list A) :
  filed key ((λ a, (f a, g a)) <$> l) = g <$> filter (λ a, f a = key) l.
Proof.
  unfold filed. induction l as [|a l IH]; [done|].
  csimpl. rewrite !filter_cons. simpl.
  destruct (decide (f a = key)); csimpl; by rewrite IH.
Qed.

(** X13.  When no category is a name that objects inherit, the
    category breakdown has one property per category, products without
    a category being filed under [Uncategorized].  Each property holds
    the sum of the sales counts of the products of its category, a null
    count taken as 0, and the properties add up to the sales of all
    products.  JavaScript lists the properties with the categories that
    are array indices first, in ascending order, and then the others in
    the order in which they first occur in the reply. *)
Theorem getCategoryBreakdown_sums (data : list ProductSales) :
  Forall (λ p, category_of p ∉ inherited_names) data
  → ∃ breakdown,
      getCategoryBreakdown true (RowsData (Some data)) = Some breakdown
      ∧ NoDup breakdown.*1
      ∧ listed (first_seen (category_of <$> data)) breakdown.*1
      ∧ (Forall (λ p, array_index (category_of p) = None) data
         → breakdown.*1 = first_seen (category_of <$> data))
      ∧ (∀ category count,
           (category, count) ∈ breakdown
           ↔ category ∈ category_of <$> data
             ∧ count = Zsum (sold <$> filter (λ p, category_of p = category) data))
      ∧ Zsum breakdown.*2 = Zsum (sold <$> data).
Proof.
  intros Hnames.
  assert (Hkeys : (sales_row <$> data).*1 = category_of <$> data).
  { by rewrite <- list_fmap_compose. }
  assert (Hvalues : (sales_row <$> data).*2 = sold <$> data).
  { by rewrite <- list_fmap_compose. }
  destruct (grouped_spec add_count (sales_row <$> data))
    as (entries & Hentries & Hdistinct & _ & Hperm & Horder & Hvalue & Hobject).
  { apply Forall_fmap. eapply Forall_impl; [exact Hnames|]. done. }
  rewrite Hkeys in Hperm, Horder, Hvalue.
  exists entries. simpl. split; [done|]. split; [done|]. split; [done|].
  split; [|split].
  - intros Hnone. apply Horder, Forall_fmap.
    eapply Forall_impl; [exact Hnone|]. done.
  - intros category count. rewrite Hvalue.
    unfold sales_row. rewrite (filed_fmap category_of sold), added_count.
    split.
    + intros [Hin Hcount]. split; [done|].
      destruct (sold <$> filter _ data); by simplify_eq.
    + intros [Hin ->]. split; [done|].
      destruct (sold <$> filter _ data) eqn:Hnil; [|done].
      apply fmap_nil_inv in Hnil.
      apply list_elem_of_fmap in Hin as (p & -> & Hp).
      assert (p ∈ filter (λ q, category_of q = category_of p) data) as Hfound
        by (by apply list_elem_of_filter).
      rewrite Hnil in Hfound. by apply elem_of_nil in Hfound.
  - rewrite (Zsum_Permutation _ (default [] (accumulate add_count (sales_row <$> data))).*2)
      by (by rewrite Hobject).
    rewrite accumulate_count_total.
    destruct (accumulate add_count (sales_row <$> data)); [by rewrite Hvalues|done].
Qed.

Section RevenueFacts.

Variable toLocaleDateString : string → string.

(** X14.  When no date reads as a name that objects inherit, the revenue
    by period has one entry per local date.  The revenue of a date is
    the sum of the totals of the paid orders created on that date, added
    one by one in the order of the reply in the arithmetic of JavaScript
    numbers, a sum so far that is NaN or zero counting as 0.  The entries
    come with the dates that are array indices first, in ascending
    order, and then the others in the order in which they first occur in
    the reply. *)
Theorem getRevenueByPeriod_groups (data : list PaidOrder) :
  let date o := toLocaleDateString (po_created_at o) in
  Forall (λ o, date o ∉ inherited_names) data
  → ∃ entries,
      getRevenueByPeriod toLocaleDateString true (RowsData (Some data)) = Some entries
      ∧ NoDup entries.*1
      ∧ listed (first_seen (date <$> data)) entries.*1
      ∧ (Forall (λ o, array_index (date o) = None) data
         → entries.*1 = first_seen (date <$> data))
      ∧ (∀ d revenue,
           (d, revenue) ∈ entries
           ↔ d ∈ date <$> data
             ∧ revenue = running_sum (po_total <$> filter (λ o, date o = d) data)).
Proof.
  intros date Hnames. subst date.
  assert (Hkeys : (revenue_row toLocaleDateString <$> data).*1
                  = (λ o, toLocaleDateString (po_created_at o)) <$> data).
  { by rewrite <- list_fmap_compose. }
  destruct (grouped_spec add_number (revenue_row toLocaleDateString <$> data))
    as (entries & Hentries & Hdistinct & _ & Hperm & Horder & Hvalue & _).
  { apply Forall_fmap. eapply Forall_impl; [exact Hnames|]. done. }
  rewrite Hkeys in Hperm, Horder, Hvalue.
  exists entries. simpl. split; [done|]. split; [done|]. split; [done|]. split.
  - intros Hnone. apply Horder, Forall_fmap.
    eapply Forall_impl; [exact Hnone|]. done.
  - intros d revenue. rewrite Hvalue.
    unfold revenue_row.
    rewrite (filed_fmap (λ o, toLocaleDateString (po_created_at o)) po_total),
      added_number.
    split.
    + intros [Hin Hrevenue]. split; [done|].
      destruct (po_total <$> filter _ data); by simplify_eq.
    + intros [Hin ->]. split; [done|].
      destruct (po_total <$> filter _ data) eqn:Hnil; [|done].
      apply fmap_nil_inv in Hnil.
      apply list_elem_of_fmap in Hin as (o & -> & Ho).
      assert (o ∈ filter (λ q, toLocaleDateString (po_created_at q)
                                = toLocaleDateString (po_created_at o)) data)
        as Hfound by (by apply list_elem_of_filter).
      rewrite Hnil in Hfound. by apply elem_of_nil in Hfound.
Qed.

End RevenueFacts.

(** * The analytics module: customers *)

Lemma first_occurrences_elem (self : list (option string)) (email : option string) :
  email ∈ first_occurrences self ↔ truthy email = true ∧ email ∈ self.
Proof.
  unfold first_occurrences. rewrite list_elem_of_fmap. split.
  - intros ([i e] & -> & Hin). apply list_elem_of_filter in Hin as [[Ht _] Hin].
    apply elem_of_lookup_imap in Hin as (j & y & [= -> ->] & Hy).
    split; [done|]. by eapply list_elem_of_lookup_2.
  - intros [Ht Hin].
    destruct (list_find (λ e, e = email) self) as [[i e]|] eqn:Hfind.
    + pose proof Hfind as Hfound.
      apply list_find_Some in Hfound as (Hi & -> & _).
      exists (i, email). split; [done|]. apply list_elem_of_filter. split.
      * split; [done|]. unfold indexOf. simpl. by rewrite Hfind.
      * by apply (elem_of_lookup_imap_2 pair).
    + apply list_find_None in Hfind.
      by apply (proj1 (Forall_forall _ _) Hfind) in Hin.
Qed.

Lemma NoDup_first_occurrences (self : list (option string)) :
  NoDup (first_occurrences self).
Proof.
  unfold first_occurrences. apply NoDup_fmap_2_strong.
  - intros [i a] [j b] [[_ Hi] _]%list_elem_of_filter [[_ Hj] _]%list_elem_of_filter.
    simpl in *. intros ->. rewrite Hi in Hj. by injection Hj as ->.
  - apply NoDup_filter. apply (NoDup_fmap_1 fst).
    rewrite fmap_imap. unfold compose. simpl.
    change (NoDup (imap (λ (j : nat) (_ : option string), id j) self)).
    rewrite (imap_seq_0 self id), list_fmap_id. apply NoDup_seq.
Qed.

(** X15.  The number of new customers of the month is the number of
    distinct e-mail addresses among the orders placed since the start of
    the month, whether or not the address also ordered before; it never
    exceeds the number of customers, which is the number of distinct
    e-mail addresses among all orders. *)
Theorem getCustomersCount_new_this_month (startOfMonth : Z) (data : list CustomerOrder) :
  let count := getCustomersCount true startOfMonth (RowsData (Some data)) in
  let this_month := filter (λ o, (startOfMonth ≤ co_created_at o)%Z) data in
  cc_total count = length (customers_of data)
  ∧ cc_newThisMonth count = length (customers_of this_month)
  ∧ (cc_newThisMonth count ≤ cc_total count)%nat.
Proof.
  simpl. set (this_month := filter _ data).
  assert (Hnew : length (first_occurrences (co_customer_email <$> this_month))
                 = length (customers_of this_month)).
  { apply Permutation_length, NoDup_Permutation.
    - apply NoDup_first_occurrences.
    - apply NoDup_remove_dups.
    - intros email. unfold customers_of.
      by rewrite first_occurrences_elem, elem_of_remove_dups, list_elem_of_filter. }
  split; [done|]. split; [done|]. rewrite Hnew.
  apply submseteq_length, NoDup_submseteq; [apply NoDup_remove_dups|].
  intros email. unfold customers_of.
  rewrite !elem_of_remove_dups, !list_elem_of_filter, !list_elem_of_fmap.
  intros [Ht (o & -> & Ho)]. split; [done|]. exists o. split; [done|].
  by apply list_elem_of_filter in Ho as [_ Ho].
Qed.

(** * Sample runs of the cart, the product form and the analytics *)

Lemma sample_in_sync : in_sync Sample.alice Sample.alice_shopping.
Proof.
  split; [reflexivity|]. split.
  - apply (bool_decide_unpack _). by vm_compute.
  - repeat constructor; try done.
    + intros n Hn Hid. change "row-1" with (fresh_id 1) in Hid.
      apply fresh_id_inj in Hid. simpl in Hn. lia.
    + intros n Hn Hid. change "row-2" with (fresh_id 2) in Hid.
      apply fresh_id_inj in Hid. simpl in Hn. lia.
Qed.

(** Alice, with one oxford shirt in M, clicks "add" twice before the
    first reply is in: both calls ask the backend for a quantity of 2,
    and both add 1 in the page, which shows 3. *)
Lemma overlapped_adds_part :
  let events :=
    [Click Sample.oxford "M" 1%Z; Click Sample.oxford "M" 1%Z; Settle 0; Settle 0] in
  let st' :=
    (run_events Sample.never_fails Sample.ilike Sample.order_rows
       events Sample.alice_shopping).1 in
  all_succeeded Sample.alice_shopping st'
  ∧ l_quantity <$> lines_of "p-oxford" "M" (cart st') = [3%Z]
  ∧ r_quantity <$> filter (λ r, r_product_id r = "p-oxford") (be_cart_items (backend st'))
    = [2%Z].
Proof. vm_compute. split; [repeat constructor|done]. Qed.

(** Alice adds one more Oxford shirt in M: cart and rows still agree. *)
Lemma cart_stays_in_sync_witness :
  in_sync Sample.alice
    (run_op Sample.never_fails Sample.ilike Sample.order_rows
       (Add Sample.oxford "M" 1) Sample.alice_shopping).2.
Proof.
  apply cart_stays_in_sync; [reflexivity|apply sample_in_sync].
Defined.

(** Alice reloads the page with two lines in her cart. *)
Lemma reload_restores_cart_witness :
  line_key <$> cart (checkAuth (Some Sample.alice) (CartRows Sample.alice_joined)
                       (page_start Sample.alice_shopping)).2
  ≡ₚ line_key <$> Sample.alice_lines.
Proof.
  destruct (reload_restores_cart Sample.alice_shopping Sample.alice
              Sample.alice_joined Sample.alice_joined "timeout")
    as (_ & Hcart & _).
  - apply sample_in_sync.
  - reflexivity.
  - reflexivity.
  - exact Hcart.
Defined.

(** Alice logs out and in again. *)
Lemma logout_login_restores_cart_witness :
  line_key <$> cart (handleLogin (inr Sample.alice) (CartRows Sample.alice_joined)
                       (handleLogout None Sample.alice_shopping).2).2
  ≡ₚ line_key <$> Sample.alice_lines.
Proof.
  destruct (logout_login_restores_cart Sample.alice_shopping Sample.alice
              Sample.alice_joined Sample.alice_joined)
    as (_ & _ & _ & _ & Hcart & _).
  - apply sample_in_sync.
  - reflexivity.
  - reflexivity.
  - exact Hcart.
Defined.

(** Alice checks out; the order is stored, the request that empties her
    rows fails. *)
Lemma checkout_failed_delete_leaves_stale_cart_witness :
  let st1 := (processCheckout Sample.second_fails Sample.ilike Sample.order_rows
                Sample.alice_shopping).2 in
  cart st1 = []
  ∧ line_key <$> cart (loadCart (CartRows Sample.alice_joined) st1).2
    ≡ₚ line_key <$> Sample.alice_lines.
Proof.
  destruct (checkout_failed_delete_leaves_stale_cart Sample.second_fails Sample.ilike
              Sample.order_rows Sample.alice_shopping Sample.alice
              Sample.alice_joined Sample.alice_joined)
    as (Hempty & _ & Hcart).
  - reflexivity.
  - discriminate.
  - apply sample_in_sync.
  - reflexivity.
  - reflexivity.
  - reflexivity.
  - reflexivity.
  - split; [exact Hempty|exact Hcart].
Defined.

(** Alice adds one shirt to a cart of positive quantities. *)
Lemma cart_quantities_stay_positive_witness :
  positive_cart
    (cart (run_op Sample.never_fails Sample.ilike Sample.order_rows
             (Add Sample.oxford "M" 1) Sample.alice_shopping).2).
Proof.
  apply (proj2 (cart_quantities_stay_positive Sample.never_fails Sample.ilike
                  Sample.order_rows (Add Sample.oxford "M" 1) Sample.alice_shopping)).
  - repeat constructor; simpl; lia.
  - simpl. lia.
Defined.

(** A guest removes the first line. *)
Lemma guest_cart_is_stored_witness :
  let st' := (run_op Sample.never_fails Sample.ilike Sample.order_rows
                (Remove 0) Sample.guest_shopping).2 in
  stored_cart st' = Some (cart st').
Proof.
  destruct (guest_cart_is_stored Sample.never_fails Sample.ilike Sample.order_rows
              (Remove 0) Sample.guest_shopping (CartRows []))
    as (Hstored & _).
  - reflexivity.
  - reflexivity.
  - exact Hstored.
Defined.

(** Alice sets the second line from 2 to 5: three items more. *)
Lemma item_count_after_witness :
  cart_count
    (cart (run_op Sample.never_fails Sample.ilike Sample.order_rows
             (SetQuantity 1 5) Sample.alice_shopping).2)
  = (cart_count Sample.alice_lines + 3)%Z.
Proof.
  apply (proj1 (item_count_after Sample.never_fails Sample.ilike Sample.order_rows
                  (SetQuantity 1 5) Sample.alice_shopping)).
  split; [reflexivity|]. vm_compute. repeat constructor.
Defined.

(** A new product with an image URL typed in and no file chosen. *)
Lemma submit_product_form_requires_image_witness :
  let f := mkInlineForm "" "Poplin" "A poplin shirt" 40%float "shirts"
             "https://img.example/poplin.png" ["M"; "L"] 5 "SKU-9" in
  let st' := (submit_product_form Sample.never_fails Sample.ilike Sample.order_rows
                f (inr "") Sample.alice_empty).2 in
  product_writes (issued Sample.alice_empty st')
  = [product_write (inline_product_data f "https://img.example/poplin.png")].
Proof.
  intros f st'.
  destruct (submit_product_form_requires_image Sample.never_fails Sample.ilike
              Sample.order_rows f (inr "") Sample.alice_empty) as [Hsave _].
  destruct (Hsave "https://img.example/poplin.png") as (Hwrites & _).
  - reflexivity.
  - discriminate.
  - exact Hwrites.
Defined.

(** A product saved into the sample catalog is in the list shown next. *)
Lemma saved_products_are_listed_witness :
  let pd := mkProductData None (Some "Poplin") None (Some 40%float) (Some "shirts")
              None None (Some 5%Z) None None in
  let st' := (saveAdminProduct Sample.never_fails Sample.ilike Sample.order_rows
                pd Sample.alice_shopping).2 in
  allProducts st' ≡ₚ be_products (backend st') ∧ products st' = allProducts st'.
Proof.
  intros pd st'.
  destruct (saved_products_are_listed Sample.never_fails Sample.ilike Sample.order_rows
              sample_order_rows_perm pd Sample.alice_shopping)
    as (_ & Hall & Hshown).
  - reflexivity.
  - reflexivity.
  - split; [exact Hall|exact Hshown].
Defined.


(** A product named [Shirt, blue] gets a line of eight columns. *)
Lemma exportProductsCSV_columns_witness :
  ∃ line,
    split_on "010"%char
      (csv_of products_headers (product_fields Sample.whole <$> Sample.exported_products))
    !! 1%nat = Some line
    ∧ length (split_on ","%char line) = 8%nat.
Proof.
  destruct (exportProductsCSV_columns Sample.whole Sample.exported_products 0
              (mkProductExport (Some "SKU-1") (Some "Shirt, blue") (Some "shirts")
                 (Some 20%float) (Some 4%float) None None)
              (csv_of products_headers
                 (product_fields Sample.whole <$> Sample.exported_products)))
    as (line & Hline & Hcolumns).
  - reflexivity.
  - reflexivity.
  - repeat constructor.
  - exists line. split; [exact Hline|exact Hcolumns].
Defined.

(** Five products: two in shirts, one without a category, one in each
    of the categories 10 and 2, which JavaScript lists first. *)
Lemma getCategoryBreakdown_sums_witness :
  ∃ breakdown,
    getCategoryBreakdown true (RowsData (Some Sample.sales)) = Some breakdown
    ∧ breakdown = [("2", 1); ("10", 4); ("shirts", 3); ("Uncategorized", 2)]%Z
    ∧ Zsum breakdown.*2 = 10%Z.
Proof.
  destruct (getCategoryBreakdown_sums Sample.sales)
    as (breakdown & Hbreakdown & _ & _ & _ & _ & Htotal).
  - apply (bool_decide_unpack _). by vm_compute.
  - exists breakdown. split; [exact Hbreakdown|]. split.
    + vm_compute in Hbreakdown. by injection Hbreakdown as <-.
    + rewrite Htotal. reflexivity.
Defined.

(** Three paid orders on two days, of 0.1 and 0.2 on the first: its
    revenue is the number 0.1 + 0.2. *)
Lemma getRevenueByPeriod_groups_witness :
  ∃ entries,
    getRevenueByPeriod Sample.day true (RowsData (Some Sample.paid)) = Some entries
    ∧ entries.*1 = ["2024-01-02"; "2024-01-03"]
    ∧ ("2024-01-02", (Sample.price 1 10 + Sample.price 2 10)%float) ∈ entries.
Proof.
  destruct (getRevenueByPeriod_groups Sample.day Sample.paid)
    as (entries & Hentries & _ & _ & Horder & Hvalue).
  - apply (bool_decide_unpack _). by vm_compute.
  - exists entries. split; [exact Hentries|]. split.
    + apply Horder. apply (bool_decide_unpack _). by vm_compute.
    + apply Hvalue. split.
      * apply (bool_decide_unpack _). by vm_compute.
      * by vm_compute.
Defined.
